(** * The proserve AWS VPC component: validation and resource-graph construction

    A shallow embedding of [Vpc] (the component class of the repository):
    its argument validator ([validateArgs], [validateCidrBlock]) and its
    constructor, which declares cloud resources against the provisioning
    engine.  Strings are [string], JavaScript objects used as tag maps are
    [gmap string _], arrays are lists read with [!!], exceptions are a
    result type, and the engine's registry is threaded as explicit state. *)

From Stdlib Require Import ZArith Ascii DecimalString DecimalNat.
From stdpp Require Import gmap strings list.

Local Open Scope Z_scope.

(** ** JavaScript values used by the component *)

(** A JavaScript [number], restricted to what the component computes with:
    integers and [NaN]. *)
Inductive number : Type :=
| Num (z : Z)
| NaN.

(** [a < b] and [a > b] on numbers: any comparison with [NaN] is false. *)
Definition num_lt (a b : number) : bool :=
  match a, b with
  | Num x, Num y => bool_decide (x < y)
  | _, _ => false
  end.

Definition num_gt (a b : number) : bool := num_lt b a.

(** Truthiness of a number: [0] and [NaN] are falsy. *)
Definition num_truthy (a : number) : bool :=
  match a with
  | Num z => negb (bool_decide (z = 0))
  | NaN => false
  end.

(** Exceptions: [new Error(msg)], the [TypeError] raised by the runtime
    when a property of [undefined] is read, and the [ResourceError] with
    which the base class of the component refuses a missing resource name
    (its message is the library's and is not modelled). *)
Inductive Exn : Type :=
| Error (msg : string)
| TypeError
| ResourceError.

Inductive result (A : Type) : Type :=
| Ok (a : A)
| Throw (e : Exn).
Arguments Ok {A} a.
Arguments Throw {A} e.

Definition rbind {A B} (m : result A) (k : A → result B) : result B :=
  match m with
  | Ok a => k a
  | Throw e => Throw e
  end.

(** [if (c) throw new Error(msg)] *)
Definition throw_if (c : bool) (msg : string) : result unit :=
  if c then Throw (Error msg) else Ok tt.

(** A [string | undefined] passed where a string is used as text. *)
Definition to_text (o : option string) : string := default "undefined" o.

(** Reading a property ([.length], [.split], [.forEach], [.map]) of a value
    that may be [undefined]. *)
Definition prop_of {A} (o : option A) : result A :=
  match o with
  | Some a => Ok a
  | None => Throw TypeError
  end.

(** [xs[i]!.f]: reading through an index; the [!] only silences the type
    checker, so a missing element raises [TypeError] at the property read. *)
Definition deref {A} (xs : list A) (i : nat) : result A :=
  match xs !! i with
  | Some x => Ok x
  | None => Throw TypeError
  end.

(** [xs.forEach((x, index) => f(x, index))], stopping at the first throw. *)
Fixpoint forEach_from {A} (f : A → nat → result unit) (i : nat) (xs : list A)
  : result unit :=
  match xs with
  | [] => Ok tt
  | x :: xs' => rbind (f x i) (λ _, forEach_from f (S i) xs')
  end.

Definition forEach {A} (f : A → nat → result unit) (xs : list A) : result unit :=
  forEach_from f 0%nat xs.

(** ** Strings *)

Module Str.

Definition is_digit (c : ascii) : bool :=
  let n := nat_of_ascii c in (48 <=? n)%nat && (n <=? 57)%nat.

Definition digit_val (c : ascii) : Z := Z.of_nat (nat_of_ascii c) - 48.

Fixpoint all_digits (s : string) : bool :=
  match s with
  | EmptyString => true
  | String c s' => is_digit c && all_digits s'
  end.

(** Value of a run of decimal digits, most significant first. *)
Fixpoint decimal_from (acc : Z) (s : string) : Z :=
  match s with
  | EmptyString => acc
  | String c s' => decimal_from (10 * acc + digit_val c) s'
  end.

Definition decimal (s : string) : Z := decimal_from 0 s.

Fixpoint leading_digits (s : string) : string :=
  match s with
  | EmptyString => EmptyString
  | String c s' => if is_digit c then String c (leading_digits s') else EmptyString
  end.

Fixpoint contains (c : ascii) (s : string) : bool :=
  match s with
  | EmptyString => false
  | String d s' => bool_decide (d = c) || contains c s'
  end.

(** [s.split(sep)] for a one-character separator. *)
Fixpoint split (sep : ascii) (s : string) : list string :=
  match s with
  | EmptyString => [EmptyString]
  | String c s' =>
      if bool_decide (c = sep) then EmptyString :: split sep s'
      else match split sep s' with
           | [] => [String c EmptyString]
           | h :: t => String c h :: t
           end
  end.

(** [`${index}`] for an array index. *)
Definition of_nat (n : nat) : string := NilEmpty.string_of_uint (Nat.to_uint n).

End Str.

(** [parseInt(s)] on the inputs the validator gives it (no leading white
    space, sign or radix prefix): the leading run of decimal digits, [NaN]
    when there is none, as for the text of [undefined]. *)
Definition parseInt (s : string) : number :=
  match Str.leading_digits s with
  | EmptyString => NaN
  | d => Num (Str.decimal d)
  end.

(** [Number(s)] on the inputs the validator gives it: the empty string is
    [0], a run of decimal digits is its value, anything else is [NaN]. *)
Definition Number (s : string) : number :=
  if Str.all_digits s then Num (Str.decimal s) else NaN.

(** ** Regular expressions

    The fragment of JavaScript regular expressions that [validateCidrBlock]
    uses, matched against the whole input (the pattern is anchored with
    [^] and [$]), decided by derivatives. *)

Module Regex.

Inductive regex : Type :=
| Never
| Eps
| Class (p : ascii → bool)
| Seq (r1 r2 : regex)
| Alt (r1 r2 : regex).

(** [r{n}] *)
Fixpoint power (n : nat) (r : regex) : regex :=
  match n with
  | O => Eps
  | S n' => Seq r (power n' r)
  end.

(** [r{0,n}] *)
Fixpoint upto (n : nat) (r : regex) : regex :=
  match n with
  | O => Eps
  | S n' => Alt Eps (Seq r (upto n' r))
  end.

(** [r{lo,hi}] *)
Definition range (lo hi : nat) (r : regex) : regex :=
  Seq (power lo r) (upto (hi - lo) r).

(** [\d] *)
Definition digit : regex := Class Str.is_digit.

(** A literal character. *)
Definition lit (c : ascii) : regex := Class (λ d, bool_decide (d = c)).

Fixpoint nullable (r : regex) : bool :=
  match r with
  | Never => false
  | Eps => true
  | Class _ => false
  | Seq r1 r2 => nullable r1 && nullable r2
  | Alt r1 r2 => nullable r1 || nullable r2
  end.

Fixpoint deriv (c : ascii) (r : regex) : regex :=
  match r with
  | Never => Never
  | Eps => Never
  | Class p => if p c then Eps else Never
  | Seq r1 r2 =>
      if nullable r1 then Alt (Seq (deriv c r1) r2) (deriv c r2)
      else Seq (deriv c r1) r2
  | Alt r1 r2 => Alt (deriv c r1) (deriv c r2)
  end.

(** [r.test(s)] for an anchored pattern [/^r$/]. *)
Fixpoint test (r : regex) (s : string) : bool :=
  match s with
  | EmptyString => nullable r
  | String c s' => test (deriv c r) s'
  end.

(** The language of a pattern. *)
Inductive matches : regex → string → Prop :=
| MEps : matches Eps EmptyString
| MClass p c : p c = true → matches (Class p) (String c EmptyString)
| MSeq r1 r2 s1 s2 :
    matches r1 s1 → matches r2 s2 → matches (Seq r1 r2) (s1 +:+ s2)
| MAltL r1 r2 s : matches r1 s → matches (Alt r1 r2) s
| MAltR r1 r2 s : matches r2 s → matches (Alt r1 r2) s.

End Regex.

(** ** The CIDR validator *)

(** [/^(\d{1,3}\.){3}\d{1,3}\/\d{1,2}$/] *)
Definition cidrRegex : Regex.regex :=
  Regex.Seq
    (Regex.power 3 (Regex.Seq (Regex.range 1 3 Regex.digit) (Regex.lit ".")))
    (Regex.Seq (Regex.range 1 3 Regex.digit)
       (Regex.Seq (Regex.lit "/") (Regex.range 1 2 Regex.digit))).

(** [ipParts.some((part) => part < 0 || part > 255)] *)
Definition some_out_of_range (ipParts : list number) : bool :=
  existsb (λ part, num_lt part (Num 0) || num_gt part (Num 255)) ipParts.

Definition validateCidrBlock (cidr : string) (name : string) : result unit :=
  rbind (throw_if (negb (Regex.test cidrRegex cidr))
           (name +:+ " must be a valid CIDR block (e.g., 10.0.0.0/16)")) (λ _,
  let parts := Str.split "/" cidr in
  let ip := parts !! 0%nat in
  let prefix := parseInt (to_text (parts !! 1%nat)) in
  rbind (throw_if (num_lt prefix (Num 8) || num_gt prefix (Num 30))
           (name +:+ " prefix must be between 8 and 30")) (λ _,
  rbind (prop_of ip) (λ ip,
  let ipParts := map Number (Str.split "." ip) in
  throw_if (some_out_of_range ipParts)
    (name +:+ " contains invalid IP address")))).

(** ** Input configuration *)

(** [VpcArgs] as the constructor receives it at run time: a required field
    the caller left out is [None] ([undefined]). *)
Record VpcArgs : Type := {
  cidrBlock : option string;
  availabilityZones : option (list string);
  publicSubnetCidrs : option (list string);
  privateSubnetCidrs : option (list string);
  environment : option string;
  project : option string;
  instanceTenancy : option string;
  enableNatGateway : option bool;
  enableFlowLogs : option bool;
  flowLogRetentionDays : option number;
  tags : option (gmap string string)
}.

(** Truthiness of a [string | undefined]. *)
Definition str_truthy (o : option string) : bool :=
  match o with
  | Some s => negb (bool_decide (s = EmptyString))
  | None => false
  end.

(** [o || d] on strings. *)
Definition str_or (o : option string) (d : string) : string :=
  match o with
  | Some s => if bool_decide (s = EmptyString) then d else s
  | None => d
  end.

(** [o || d] on numbers. *)
Definition num_or (o : option number) (d : number) : number :=
  match o with
  | Some n => if num_truthy n then n else d
  | None => d
  end.

(** [o !== false] *)
Definition not_false (o : option bool) : bool :=
  match o with
  | Some false => false
  | _ => true
  end.

(** [!xs || xs.length !== args.availabilityZones.length] *)
Definition length_mismatch (xs zones : option (list string)) : result bool :=
  match xs with
  | None => Ok true
  | Some l => rbind (prop_of zones) (λ zs, Ok (negb (length l =? length zs)%nat))
  end.

Definition validateArgs (args : VpcArgs) : result unit :=
  rbind (throw_if (negb (str_truthy (cidrBlock args))) "cidrBlock is required") (λ _,
  rbind (throw_if (match availabilityZones args with
                   | None => true
                   | Some zs => (length zs =? 0)%nat
                   end)
           "availabilityZones must be provided and non-empty") (λ _,
  rbind (length_mismatch (publicSubnetCidrs args) (availabilityZones args)) (λ c,
  rbind (throw_if c
           "publicSubnetCidrs must be provided and match the number of availability zones") (λ _,
  rbind (length_mismatch (privateSubnetCidrs args) (availabilityZones args)) (λ c,
  rbind (throw_if c
           "privateSubnetCidrs must be provided and match the number of availability zones") (λ _,
  rbind (throw_if (negb (str_truthy (environment args))) "environment is required") (λ _,
  rbind (throw_if (negb (str_truthy (project args))) "project is required") (λ _,
  rbind (validateCidrBlock (to_text (cidrBlock args)) "VPC CIDR") (λ _,
  rbind (prop_of (publicSubnetCidrs args)) (λ pubs,
  rbind (forEach (λ cidr index,
           validateCidrBlock cidr ("Public subnet " +:+ Str.of_nat index +:+ " CIDR")) pubs) (λ _,
  rbind (prop_of (privateSubnetCidrs args)) (λ privs,
  forEach (λ cidr index,
    validateCidrBlock cidr ("Private subnet " +:+ Str.of_nat index +:+ " CIDR")) privs)))))))))))).

(** ** Resources and the provisioning engine *)

(** A deferred value ([pulumi.Output]): a field of the resource object
    registered at a given position of the engine's registry, or the
    resolved [undefined] of [pulumi.output(undefined)]. *)
Inductive Field : Type := FId | FArn | FCidrBlock.

Inductive Output : Type :=
| OutField (r : nat) (f : Field)
| OutUndefined.

Record Route : Type := {
  route_cidrBlock : string;
  route_gatewayId : option Output;
  route_natGatewayId : option Output
}.

Record Egress : Type := {
  egress_protocol : string;
  egress_fromPort : Z;
  egress_toPort : Z;
  egress_cidrBlocks : list string
}.

Record Statement : Type := {
  stmt_Effect : string;
  stmt_Action : list string;
  stmt_Resource : Output
}.

Record PolicyDocument : Type := {
  policy_Version : string;
  policy_Statement : list Statement
}.

(** [aws.iam.assumeRolePolicyForPrincipal({ Service: s })] *)
Inductive AssumeRolePolicy : Type :=
| assumeRolePolicyForService (s : string).

Inductive Props : Type :=
| VpcProps (cidr : option string) (enableDnsHostnames enableDnsSupport : bool)
    (tenancy : string)
| InternetGatewayProps (vpc : Output)
| SubnetProps (vpc : Output) (cidr : option string) (availabilityZone : string)
    (mapPublicIpOnLaunch : bool)
| RouteTableProps (vpc : Output) (routes : option (list Route))
| RouteTableAssociationProps (subnetId routeTableId : Output)
| EipProps (domain : string)
| NatGatewayProps (allocationId subnetId : Output)
| DefaultSecurityGroupProps (vpc : Output) (egress : list Egress)
| LogGroupProps (name : string) (retentionInDays : number)
| RoleProps (assumeRolePolicy : AssumeRolePolicy)
| RolePolicyProps (role : Output) (policy : PolicyDocument)
| FlowLogProps (vpc : Output) (trafficType : string)
    (logDestination iamRoleArn : Output).

Inductive Kind : Type :=
| KVpc | KInternetGateway | KSubnet | KRouteTable | KRouteTableAssociation
| KEip | KNatGateway | KDefaultSecurityGroup | KLogGroup | KRole | KRolePolicy
| KFlowLog.

Global Instance Kind_eq_dec : EqDecision Kind.
Proof. solve_decision. Defined.

Definition kind_of (p : Props) : Kind :=
  match p with
  | VpcProps _ _ _ _ => KVpc
  | InternetGatewayProps _ => KInternetGateway
  | SubnetProps _ _ _ _ => KSubnet
  | RouteTableProps _ _ => KRouteTable
  | RouteTableAssociationProps _ _ => KRouteTableAssociation
  | EipProps _ => KEip
  | NatGatewayProps _ _ => KNatGateway
  | DefaultSecurityGroupProps _ _ => KDefaultSecurityGroup
  | LogGroupProps _ _ => KLogGroup
  | RoleProps _ => KRole
  | RolePolicyProps _ _ => KRolePolicy
  | FlowLogProps _ _ _ _ => KFlowLog
  end.

(** A declared resource: its logical name, its properties, its [tags]
    object (absent on resources declared without one) and the component it
    was declared under ([{ parent: this }]). *)
Record Resource : Type := {
  res_name : string;
  res_props : Props;
  res_tags : option (gmap string (option string));
  res_parent : nat
}.

Record Outputs : Type := {
  vpcId : Output;
  vpcCidr : Output;
  publicSubnetIds : list Output;
  privateSubnetIds : list Output;
  publicRouteTableId : Output;
  privateRouteTableIds : list Output;
  natGatewayIds : list Output;
  internetGatewayId : Output;
  flowLogId : Output
}.

(** [pulumi.ComponentResourceOptions], the optional third argument of the
    constructor.  The component reads none of its fields and hands the
    object on to its base class; the model keeps the parent resource (a
    position of the registry) and the protection flag. *)
Record ComponentResourceOptions : Type := {
  opt_parent : option nat;
  opt_protect : option bool
}.

(** A component as the base class registers it: its type, its logical
    name and its options. *)
Record Component : Type := {
  comp_type : string;
  comp_name : string;
  comp_opts : option ComponentResourceOptions
}.

(** The engine's registry: the component resources registered by the base
    class constructor, the resources declared with [new], in order, and the
    outputs registered per component. *)
Record Engine : Type := {
  components : list Component;
  declared : list Resource;
  registered : list (nat * Outputs)
}.

Definition fresh : Engine :=
  {| components := []; declared := []; registered := [] |}.

(** Construction code: it reads and extends the registry, and may throw. *)
Definition M (A : Type) : Type := Engine → result A * Engine.

Global Instance M_ret : MRet M := λ A a e, (Ok a, e).

Global Instance M_bind : MBind M := λ A B k m e,
  match m e with
  | (Ok a, e') => k a e'
  | (Throw x, e') => (Throw x, e')
  end.

Definition lift {A} (r : result A) : M A := λ e, (r, e).

(** [super(type, name, args, opts)], the constructor of
    [pulumi.ComponentResource].  The class belongs to the engine's library,
    not to the repository: it refuses a missing ([!t], [!name]) type or
    name with a [ResourceError], before anything is registered, and
    otherwise registers the component itself, under the options given; the
    result is [this].  The [args] of a component are not handed to the
    engine: a component is only a container for the resources declared
    under it. *)
Definition super (type name : string) (args : VpcArgs)
    (opts : option ComponentResourceOptions) : M nat := λ e,
  if bool_decide (type = "") then (Throw ResourceError, e)
  else if bool_decide (name = "") then (Throw ResourceError, e)
  else
    (Ok (length (components e)),
     {| components := components e ++ [{| comp_type := type; comp_name := name;
                                          comp_opts := opts |}];
        declared := declared e;
        registered := registered e |}).

(** [new aws.x.Y(name, { ...props, tags }, { parent })]: the resource is
    appended to the registry; the result is the resource object.  Every
    logical name the component passes has a literal part, so the library's
    check for a missing name cannot fire here.  What the
    engine does with a declaration later (creation, a clash of logical
    names, provider errors) happens outside the component and is not part
    of this model. *)
Definition new (name : string) (props : Props)
    (tgs : option (gmap string (option string))) (parent : nat) : M nat := λ e,
  (Ok (length (declared e)),
   {| components := components e;
      declared := declared e ++ [{| res_name := name; res_props := props;
                                    res_tags := tgs; res_parent := parent |}];
      registered := registered e |}).

(** [this.registerOutputs({...})] *)
Definition registerOutputs (this : nat) (out : Outputs) : M unit := λ e,
  (Ok tt,
   {| components := components e;
      declared := declared e;
      registered := registered e ++ [(this, out)] |}).

(** [xs.map((x, index) => f(x, index))] with a callback that declares
    resources. *)
Fixpoint mapM_from {A B} (f : A → nat → M B) (i : nat) (xs : list A) : M (list B) :=
  match xs with
  | [] => mret []
  | x :: xs' =>
      b ← f x i;
      bs ← mapM_from f (S i) xs';
      mret (b :: bs)
  end.

Definition mapM {A B} (f : A → nat → M B) (xs : list A) : M (list B) :=
  mapM_from f 0%nat xs.

(** An object literal of tags. *)
Definition obj (l : list (string * option string)) : gmap string (option string) :=
  list_to_map l.

(** [{ ...literal, ...extra }]: the spread entries come last and win. *)
Definition spread (literal : gmap string (option string))
    (extra : option (gmap string string)) : gmap string (option string) :=
  (Some <$> default ∅ extra) ∪ literal.

Definition id_of (r : nat) : Output := OutField r FId.
Definition arn_of (r : nat) : Output := OutField r FArn.

(** ** The component constructor *)

Definition constructor (name : string) (args : VpcArgs)
    (opts : option ComponentResourceOptions) : M Outputs :=
  this ← super "proserve:aws:Vpc" name args opts;
  lift (validateArgs args);;
  vpc ← new (name +:+ "-vpc")
    (VpcProps (cidrBlock args) true true (str_or (instanceTenancy args) "default"))
    (Some (spread (obj [("Name", Some (name +:+ "-vpc"));
                        ("Environment", environment args);
                        ("Project", project args);
                        ("ManagedBy", Some "pulumi")]) (tags args)))
    this;
  internetGateway ← new (name +:+ "-igw")
    (InternetGatewayProps (id_of vpc))
    (Some (obj [("Name", Some (name +:+ "-igw"));
                ("Environment", environment args);
                ("Project", project args);
                ("ManagedBy", Some "pulumi")]))
    this;
  zones ← lift (prop_of (availabilityZones args));
  publicSubnets ← mapM (λ az index,
    cidrs ← lift (prop_of (publicSubnetCidrs args));
    new (name +:+ "-public-" +:+ az)
      (SubnetProps (id_of vpc) (cidrs !! index) az true)
      (Some (obj [("Name", Some (name +:+ "-public-" +:+ az));
                  ("Environment", environment args);
                  ("Project", project args);
                  ("Type", Some "public");
                  ("ManagedBy", Some "pulumi")]))
      this) zones;
  privateSubnets ← mapM (λ az index,
    cidrs ← lift (prop_of (privateSubnetCidrs args));
    new (name +:+ "-private-" +:+ az)
      (SubnetProps (id_of vpc) (cidrs !! index) az false)
      (Some (obj [("Name", Some (name +:+ "-private-" +:+ az));
                  ("Environment", environment args);
                  ("Project", project args);
                  ("Type", Some "private");
                  ("ManagedBy", Some "pulumi")]))
      this) zones;
  publicRouteTable ← new (name +:+ "-public-rt")
    (RouteTableProps (id_of vpc)
       (Some [{| route_cidrBlock := "0.0.0.0/0";
                 route_gatewayId := Some (id_of internetGateway);
                 route_natGatewayId := None |}]))
    (Some (obj [("Name", Some (name +:+ "-public-rt"));
                ("Environment", environment args);
                ("Project", project args);
                ("Type", Some "public");
                ("ManagedBy", Some "pulumi")]))
    this;
  mapM (λ subnet index,
    new (name +:+ "-public-rta-" +:+ Str.of_nat index)
      (RouteTableAssociationProps (id_of subnet) (id_of publicRouteTable))
      None this) publicSubnets;;
  '(natGateways, privateRouteTables) ←
    (if not_false (enableNatGateway args) then
       natEips ← mapM (λ az _,
         new (name +:+ "-nat-eip-" +:+ az)
           (EipProps "vpc")
           (Some (obj [("Name", Some (name +:+ "-nat-eip-" +:+ az));
                       ("Environment", environment args);
                       ("Project", project args);
                       ("ManagedBy", Some "pulumi")]))
           this) zones;
       natGateways ← mapM (λ az index,
         eip ← lift (deref natEips index);
         subnet ← lift (deref publicSubnets index);
         new (name +:+ "-nat-" +:+ az)
           (NatGatewayProps (id_of eip) (id_of subnet))
           (Some (obj [("Name", Some (name +:+ "-nat-" +:+ az));
                       ("Environment", environment args);
                       ("Project", project args);
                       ("ManagedBy", Some "pulumi")]))
           this) zones;
       privateRouteTables ← mapM (λ az index,
         natGateway ← lift (deref natGateways index);
         new (name +:+ "-private-rt-" +:+ az)
           (RouteTableProps (id_of vpc)
              (Some [{| route_cidrBlock := "0.0.0.0/0";
                        route_gatewayId := None;
                        route_natGatewayId := Some (id_of natGateway) |}]))
           (Some (obj [("Name", Some (name +:+ "-private-rt-" +:+ az));
                       ("Environment", environment args);
                       ("Project", project args);
                       ("Type", Some "private");
                       ("ManagedBy", Some "pulumi")]))
           this) zones;
       mret (natGateways, privateRouteTables)
     else
       privateRouteTables ← mapM (λ az _,
         new (name +:+ "-private-rt-" +:+ az)
           (RouteTableProps (id_of vpc) None)
           (Some (obj [("Name", Some (name +:+ "-private-rt-" +:+ az));
                       ("Environment", environment args);
                       ("Project", project args);
                       ("Type", Some "private");
                       ("ManagedBy", Some "pulumi")]))
           this) zones;
       mret ([], privateRouteTables));
  mapM (λ subnet index,
    routeTable ← lift (deref privateRouteTables index);
    new (name +:+ "-private-rta-" +:+ Str.of_nat index)
      (RouteTableAssociationProps (id_of subnet) (id_of routeTable))
      None this) privateSubnets;;
  new (name +:+ "-default-sg")
    (DefaultSecurityGroupProps (id_of vpc)
       [{| egress_protocol := "-1"; egress_fromPort := 0; egress_toPort := 0;
           egress_cidrBlocks := ["0.0.0.0/0"] |}])
    (Some (obj [("Name", Some (name +:+ "-default-sg"));
                ("Environment", environment args);
                ("Project", project args);
                ("ManagedBy", Some "pulumi")]))
    this;;
  flowLog ←
    (if not_false (enableFlowLogs args) then
       flowLogGroup ← new (name +:+ "-flow-logs")
         (LogGroupProps ("/aws/vpc/flow-logs/" +:+ name)
            (num_or (flowLogRetentionDays args) (Num 7)))
         (Some (obj [("Environment", environment args);
                     ("Project", project args);
                     ("ManagedBy", Some "pulumi")]))
         this;
       flowLogRole ← new (name +:+ "-flow-log-role")
         (RoleProps (assumeRolePolicyForService "vpc-flow-logs.amazonaws.com"))
         (Some (obj [("Environment", environment args);
                     ("Project", project args);
                     ("ManagedBy", Some "pulumi")]))
         this;
       new (name +:+ "-flow-log-policy")
         (RolePolicyProps (id_of flowLogRole)
            {| policy_Version := "2012-10-17";
               policy_Statement :=
                 [{| stmt_Effect := "Allow";
                     stmt_Action := ["logs:CreateLogGroup";
                                     "logs:CreateLogStream";
                                     "logs:PutLogEvents";
                                     "logs:DescribeLogGroups";
                                     "logs:DescribeLogStreams"];
                     stmt_Resource := arn_of flowLogGroup |}] |})
         None this;;
       flowLog ← new (name +:+ "-flow-log")
         (FlowLogProps (id_of vpc) "ALL" (arn_of flowLogGroup) (arn_of flowLogRole))
         (Some (obj [("Name", Some (name +:+ "-flow-log"));
                     ("Environment", environment args);
                     ("Project", project args);
                     ("ManagedBy", Some "pulumi")]))
         this;
       mret (Some flowLog)
     else mret None);
  let out :=
    {| vpcId := id_of vpc;
       vpcCidr := OutField vpc FCidrBlock;
       publicSubnetIds := map id_of publicSubnets;
       privateSubnetIds := map id_of privateSubnets;
       publicRouteTableId := id_of publicRouteTable;
       privateRouteTableIds := map id_of privateRouteTables;
       natGatewayIds := map id_of natGateways;
       internetGatewayId := id_of internetGateway;
       flowLogId := match flowLog with
                    | Some fl => id_of fl
                    | None => OutUndefined
                    end |} in
  registerOutputs this out;;
  mret out.

(** The basic example of the repository. *)
Definition basic_args : VpcArgs :=
  {| cidrBlock := Some "10.0.0.0/16";
     availabilityZones := Some ["us-east-1a"; "us-east-1b"];
     publicSubnetCidrs := Some ["10.0.1.0/24"; "10.0.2.0/24"];
     privateSubnetCidrs := Some ["10.0.11.0/24"; "10.0.12.0/24"];
     environment := Some "dev";
     project := Some "example-project";
     instanceTenancy := None;
     enableNatGateway := Some true;
     enableFlowLogs := Some true;
     flowLogRetentionDays := Some (Num 7);
     tags := Some (<["Owner" := "platform-team"]> (<["CostCenter" := "platform"]> ∅)) |}.

(** Variations of the basic example. *)
Definition example (zones publicCidrs : list string) (natGateway flowLogs : bool)
    (retention : option number) : VpcArgs :=
  {| cidrBlock := Some "10.0.0.0/16";
     availabilityZones := Some zones;
     publicSubnetCidrs := Some publicCidrs;
     privateSubnetCidrs := Some ["10.0.11.0/24"; "10.0.12.0/24"];
     environment := Some "dev";
     project := Some "example-project";
     instanceTenancy := None;
     enableNatGateway := Some natGateway;
     enableFlowLogs := Some flowLogs;
     flowLogRetentionDays := retention;
     tags := None |}.

Definition two_zones : list string := ["us-east-1a"; "us-east-1b"].
Definition two_cidrs : list string := ["10.0.1.0/24"; "10.0.2.0/24"].

(** NAT switched off. *)
Definition no_nat_args : VpcArgs := example two_zones two_cidrs false true None.

(** Flow logging switched off. *)
Definition no_flow_args : VpcArgs := example two_zones two_cidrs true false None.

(** A retention of zero days. *)
Definition zero_retention_args : VpcArgs :=
  example two_zones two_cidrs true true (Some (Num 0)).

(** Three zones but two public CIDR blocks. *)
Definition mismatch_args : VpcArgs :=
  example ["us-east-1a"; "us-east-1b"; "us-east-1c"] two_cidrs true true None.

(** ** The validator as the specification words it *)

(** A run of [lo] to [hi] decimal digits. *)
Definition digits_within (lo hi : nat) (s : string) : Prop :=
  Str.all_digits s = true ∧ (lo ≤ String.length s ≤ hi)%nat.

(** An octet: a decimal numeral of one to three digits with a value in
    0..255. *)
Definition is_octet (s : string) : Prop :=
  Str.all_digits s = true ∧ (1 ≤ String.length s ≤ 3)%nat ∧ 0 ≤ Str.decimal s ≤ 255.

(** A prefix length: a decimal numeral of one or two digits with a value
    in 8..30. *)
Definition is_prefix_length (s : string) : Prop :=
  Str.all_digits s = true ∧ (1 ≤ String.length s ≤ 2)%nat ∧ 8 ≤ Str.decimal s ≤ 30.

(** Four dot-separated octets followed by [/] and a prefix length. *)
Definition cidr_syntax (s : string) : Prop :=
  ∃ a b c d p,
    s = a +:+ "." +:+ b +:+ "." +:+ c +:+ "." +:+ d +:+ "/" +:+ p
    ∧ is_octet a ∧ is_octet b ∧ is_octet c ∧ is_octet d ∧ is_prefix_length p.

(** The message a CIDR block is refused with, if it is refused. *)
Definition cidr_violation (label cidr : string) : option string :=
  match validateCidrBlock cidr label with
  | Throw (Error m) => Some m
  | _ => None
  end.

Definition violated (c : bool) (msg : string) : option string :=
  if c then Some msg else None.

(** The constraints of the validator in their fixed order, each one judged
    on its own: [Some msg] when the configuration violates it. *)
Definition checks (args : VpcArgs) : list (option string) :=
  let zones := default [] (availabilityZones args) in
  [ violated (bool_decide (cidrBlock args = None ∨ cidrBlock args = Some EmptyString))
      "cidrBlock is required";
    violated (bool_decide (availabilityZones args = None ∨ availabilityZones args = Some []))
      "availabilityZones must be provided and non-empty";
    violated (bool_decide (length <$> publicSubnetCidrs args ≠ Some (length zones)))
      "publicSubnetCidrs must be provided and match the number of availability zones";
    violated (bool_decide (length <$> privateSubnetCidrs args ≠ Some (length zones)))
      "privateSubnetCidrs must be provided and match the number of availability zones";
    violated (bool_decide (environment args = None ∨ environment args = Some EmptyString))
      "environment is required";
    violated (bool_decide (project args = None ∨ project args = Some EmptyString))
      "project is required";
    cidr_violation "VPC CIDR" (to_text (cidrBlock args)) ]
  ++ imap (λ index cidr,
       cidr_violation ("Public subnet " +:+ Str.of_nat index +:+ " CIDR") cidr)
       (default [] (publicSubnetCidrs args))
  ++ imap (λ index cidr,
       cidr_violation ("Private subnet " +:+ Str.of_nat index +:+ " CIDR") cidr)
       (default [] (privateSubnetCidrs args)).

Fixpoint first_violation (l : list (option string)) : option string :=
  match l with
  | [] => None
  | Some m :: _ => Some m
  | None :: l' => first_violation l'
  end.

(** ** The declared graph in closed form

    What one run of the constructor appends to the registry, for a
    configuration with zones [zs], run as component number [this] on a
    registry that already holds [b] resources: the position of every
    resource and the resource declared there.  [constructor_run] below
    proves that the constructor produces exactly this. *)

Section Graph.

Variables (name : string) (args : VpcArgs) (this b : nat) (zs : list string).

Local Abbreviation n := (length zs).
Local Abbreviation nat_on := (not_false (enableNatGateway args)).
Local Abbreviation flow_on := (not_false (enableFlowLogs args)).

Definition tags_named (nm : string) : gmap string (option string) :=
  obj [("Name", Some nm);
       ("Environment", environment args);
       ("Project", project args);
       ("ManagedBy", Some "pulumi")].

Definition tags_typed (nm ty : string) : gmap string (option string) :=
  obj [("Name", Some nm);
       ("Environment", environment args);
       ("Project", project args);
       ("Type", Some ty);
       ("ManagedBy", Some "pulumi")].

Definition tags_plain : gmap string (option string) :=
  obj [("Environment", environment args);
       ("Project", project args);
       ("ManagedBy", Some "pulumi")].

Definition res (nm : string) (p : Props)
    (t : option (gmap string (option string))) : Resource :=
  {| res_name := nm; res_props := p; res_tags := t; res_parent := this |}.

(** Positions in the registry. *)
Definition at_vpc : nat := b.
Definition at_igw : nat := b + 1.
Definition at_public (i : nat) : nat := b + 2 + i.
Definition at_private (i : nat) : nat := b + 2 + n + i.
Definition at_public_rt : nat := b + 2 + 2 * n.
Definition at_public_rta (i : nat) : nat := b + 3 + 2 * n + i.
Definition at_eip (i : nat) : nat := b + 3 + 3 * n + i.
Definition at_nat (i : nat) : nat := b + 3 + 4 * n + i.
Definition nat_size : nat := if nat_on then 2 * n else 0.
Definition at_private_rt (i : nat) : nat := b + 3 + 3 * n + nat_size + i.
Definition at_private_rta (i : nat) : nat := b + 3 + 4 * n + nat_size + i.
Definition at_sg : nat := b + 3 + 5 * n + nat_size.
Definition at_log_group : nat := at_sg + 1.
Definition at_role : nat := at_sg + 2.
Definition at_policy : nat := at_sg + 3.
Definition at_flow_log : nat := at_sg + 4.

(** The resources. *)
Definition vpc_res : Resource :=
  res (name +:+ "-vpc")
    (VpcProps (cidrBlock args) true true (str_or (instanceTenancy args) "default"))
    (Some (spread (tags_named (name +:+ "-vpc")) (tags args))).

Definition igw_res : Resource :=
  res (name +:+ "-igw") (InternetGatewayProps (id_of at_vpc))
    (Some (tags_named (name +:+ "-igw"))).

Definition public_subnet_res (i : nat) (az : string) : Resource :=
  res (name +:+ "-public-" +:+ az)
    (SubnetProps (id_of at_vpc) (default [] (publicSubnetCidrs args) !! i) az true)
    (Some (tags_typed (name +:+ "-public-" +:+ az) "public")).

Definition private_subnet_res (i : nat) (az : string) : Resource :=
  res (name +:+ "-private-" +:+ az)
    (SubnetProps (id_of at_vpc) (default [] (privateSubnetCidrs args) !! i) az false)
    (Some (tags_typed (name +:+ "-private-" +:+ az) "private")).

Definition public_rt_res : Resource :=
  res (name +:+ "-public-rt")
    (RouteTableProps (id_of at_vpc)
       (Some [{| route_cidrBlock := "0.0.0.0/0";
                 route_gatewayId := Some (id_of at_igw);
                 route_natGatewayId := None |}]))
    (Some (tags_typed (name +:+ "-public-rt") "public")).

Definition public_rta_res (i : nat) : Resource :=
  res (name +:+ "-public-rta-" +:+ Str.of_nat i)
    (RouteTableAssociationProps (id_of (at_public i)) (id_of at_public_rt))
    None.

Definition eip_res (az : string) : Resource :=
  res (name +:+ "-nat-eip-" +:+ az) (EipProps "vpc")
    (Some (tags_named (name +:+ "-nat-eip-" +:+ az))).

Definition nat_res (i : nat) (az : string) : Resource :=
  res (name +:+ "-nat-" +:+ az)
    (NatGatewayProps (id_of (at_eip i)) (id_of (at_public i)))
    (Some (tags_named (name +:+ "-nat-" +:+ az))).

Definition private_rt_res (i : nat) (az : string) : Resource :=
  res (name +:+ "-private-rt-" +:+ az)
    (RouteTableProps (id_of at_vpc)
       (if nat_on
        then Some [{| route_cidrBlock := "0.0.0.0/0";
                      route_gatewayId := None;
                      route_natGatewayId := Some (id_of (at_nat i)) |}]
        else None))
    (Some (tags_typed (name +:+ "-private-rt-" +:+ az) "private")).

Definition private_rta_res (i : nat) : Resource :=
  res (name +:+ "-private-rta-" +:+ Str.of_nat i)
    (RouteTableAssociationProps (id_of (at_private i)) (id_of (at_private_rt i)))
    None.

Definition sg_res : Resource :=
  res (name +:+ "-default-sg")
    (DefaultSecurityGroupProps (id_of at_vpc)
       [{| egress_protocol := "-1"; egress_fromPort := 0; egress_toPort := 0;
           egress_cidrBlocks := ["0.0.0.0/0"] |}])
    (Some (tags_named (name +:+ "-default-sg"))).

Definition log_group_res : Resource :=
  res (name +:+ "-flow-logs")
    (LogGroupProps ("/aws/vpc/flow-logs/" +:+ name)
       (num_or (flowLogRetentionDays args) (Num 7)))
    (Some tags_plain).

Definition role_res : Resource :=
  res (name +:+ "-flow-log-role")
    (RoleProps (assumeRolePolicyForService "vpc-flow-logs.amazonaws.com"))
    (Some tags_plain).

Definition policy_res : Resource :=
  res (name +:+ "-flow-log-policy")
    (RolePolicyProps (id_of at_role)
       {| policy_Version := "2012-10-17";
          policy_Statement :=
            [{| stmt_Effect := "Allow";
                stmt_Action := ["logs:CreateLogGroup";
                                "logs:CreateLogStream";
                                "logs:PutLogEvents";
                                "logs:DescribeLogGroups";
                                "logs:DescribeLogStreams"];
                stmt_Resource := arn_of at_log_group |}] |})
    None.

Definition flow_log_res : Resource :=
  res (name +:+ "-flow-log")
    (FlowLogProps (id_of at_vpc) "ALL" (arn_of at_log_group) (arn_of at_role))
    (Some (tags_named (name +:+ "-flow-log"))).

(** The segments of the graph, in declaration order. *)
Definition nat_part : list Resource :=
  if nat_on then imap (λ _ az, eip_res az) zs ++ imap nat_res zs else [].

Definition flow_part : list Resource :=
  if flow_on then [log_group_res; role_res; policy_res; flow_log_res] else [].

Definition graph : list Resource :=
  [vpc_res; igw_res]
  ++ imap public_subnet_res zs
  ++ imap private_subnet_res zs
  ++ [public_rt_res]
  ++ imap (λ i _, public_rta_res i) zs
  ++ nat_part
  ++ imap private_rt_res zs
  ++ imap (λ i _, private_rta_res i) zs
  ++ [sg_res]
  ++ flow_part.

Definition outputs : Outputs :=
  {| vpcId := id_of at_vpc;
     vpcCidr := OutField at_vpc FCidrBlock;
     publicSubnetIds := imap (λ i _, id_of (at_public i)) zs;
     privateSubnetIds := imap (λ i _, id_of (at_private i)) zs;
     publicRouteTableId := id_of at_public_rt;
     privateRouteTableIds := imap (λ i _, id_of (at_private_rt i)) zs;
     natGatewayIds := if nat_on then imap (λ i _, id_of (at_nat i)) zs else [];
     internetGatewayId := id_of at_igw;
     flowLogId := if flow_on then id_of at_flow_log else OutUndefined |}.

End Graph.

(** The component of one constructor call, as the base class registers
    it. *)
Definition vpc_component (name : string)
    (opts : option ComponentResourceOptions) : Component :=
  {| comp_type := "proserve:aws:Vpc"; comp_name := name; comp_opts := opts |}.

(** The registry after a successful run. *)
Definition after_run (name : string) (args : VpcArgs)
    (opts : option ComponentResourceOptions) (zs : list string)
    (e : Engine) : Engine :=
  let this := length (components e) in
  let b := length (declared e) in
  {| components := components e ++ [vpc_component name opts];
     declared := declared e ++ graph name args this b zs;
     registered := registered e ++ [(this, outputs args b zs)] |}.

(** ** Observing a run *)

(** What the constructor returns or throws. *)
Definition run (name : string) (args : VpcArgs)
    (opts : option ComponentResourceOptions) (e : Engine) : result Outputs :=
  (constructor name args opts e).1.

(** The registry the constructor leaves behind. *)
Definition final (name : string) (args : VpcArgs)
    (opts : option ComponentResourceOptions) (e : Engine) : Engine :=
  (constructor name args opts e).2.

(** The resources this run declared, in declaration order. *)
Definition declared_by (name : string) (args : VpcArgs)
    (opts : option ComponentResourceOptions) (e : Engine) : list Resource :=
  drop (length (declared e)) (declared (final name args opts e)).

(** The resource object registered at a position after the run. *)
Definition resource_at (name : string) (args : VpcArgs)
    (opts : option ComponentResourceOptions) (e : Engine) (p : nat)
  : option Resource :=
  declared (final name args opts e) !! p.

Definition has_kind (k : Kind) (r : Resource) : bool :=
  bool_decide (kind_of (res_props r) = k).

Definition count_kind (k : Kind) (l : list Resource) : nat :=
  length (List.filter (has_kind k) l).

(** The flags as the constructor reads them: anything but an explicit
    [false] enables the feature. *)
Definition nat_enabled (args : VpcArgs) : Prop := enableNatGateway args ≠ Some false.
Definition flow_logs_enabled (args : VpcArgs) : Prop := enableFlowLogs args ≠ Some false.

(** The retention values the constructor treats as missing. *)
Definition retention_falsy (o : option number) : Prop :=
  o = None ∨ o = Some (Num 0) ∨ o = Some NaN.

(** The value of a tag of a resource, if it carries one under that key. *)
Definition tag (k : string) (r : Resource) : option (option string) :=
  res_tags r ≫= (.!! k).

(** The default route of a private route table through a NAT gateway. *)
Definition nat_route (gateway : Output) : Route :=
  {| route_cidrBlock := "0.0.0.0/0";
     route_gatewayId := None;
     route_natGatewayId := Some gateway |}.

(** The policy attached to the flow-log role, for a given log sink. *)
Definition flow_log_policy (sink : Output) : PolicyDocument :=
  {| policy_Version := "2012-10-17";
     policy_Statement :=
       [{| stmt_Effect := "Allow";
           stmt_Action := ["logs:CreateLogGroup";
                           "logs:CreateLogStream";
                           "logs:PutLogEvents";
                           "logs:DescribeLogGroups";
                           "logs:DescribeLogStreams"];
           stmt_Resource := sink |}] |}.

(** ** Tags *)

Definition standard_keys : gset string :=
  {[ "Name"; "Environment"; "Project"; "ManagedBy" ]}.

(** The keys of the tags a resource carries. *)
Definition tag_keys (r : Resource) : gset string :=
  match res_tags r with
  | Some t => dom t
  | None => ∅
  end.

Definition with_tags (t : option (gmap string string)) (args : VpcArgs) : VpcArgs :=
  {| cidrBlock := cidrBlock args;
     availabilityZones := availabilityZones args;
     publicSubnetCidrs := publicSubnetCidrs args;
     privateSubnetCidrs := privateSubnetCidrs args;
     environment := environment args;
     project := project args;
     instanceTenancy := instanceTenancy args;
     enableNatGateway := enableNatGateway args;
     enableFlowLogs := enableFlowLogs args;
     flowLogRetentionDays := flowLogRetentionDays args;
     tags := t |}.

(** What is asked of the tags of a resource other than the network: keys
    among the standard ones and [Type], the latter on subnets and route
    tables only. *)
Definition tags_bounded (r : Resource) : Prop :=
  kind_of (res_props r) ≠ KVpc →
  tag_keys r ⊆ standard_keys ∪ {["Type"]}
  ∧ ("Type" ∈ tag_keys r →
     kind_of (res_props r) = KSubnet ∨ kind_of (res_props r) = KRouteTable).

(** ** Renumbering

    Two runs on different registries give their resources different
    positions.  [move b1 b2] carries a position of a run that started at
    [b1] to the position it has in a run that started at [b2]. *)

Definition move (b1 b2 p : nat) : nat := (p - b1 + b2)%nat.

Definition move_output (b1 b2 : nat) (o : Output) : Output :=
  match o with
  | OutField r f => OutField (move b1 b2 r) f
  | OutUndefined => OutUndefined
  end.

Definition move_route (b1 b2 : nat) (r : Route) : Route :=
  {| route_cidrBlock := route_cidrBlock r;
     route_gatewayId := move_output b1 b2 <$> route_gatewayId r;
     route_natGatewayId := move_output b1 b2 <$> route_natGatewayId r |}.

Definition move_statement (b1 b2 : nat) (s : Statement) : Statement :=
  {| stmt_Effect := stmt_Effect s;
     stmt_Action := stmt_Action s;
     stmt_Resource := move_output b1 b2 (stmt_Resource s) |}.

Definition move_policy (b1 b2 : nat) (p : PolicyDocument) : PolicyDocument :=
  {| policy_Version := policy_Version p;
     policy_Statement := move_statement b1 b2 <$> policy_Statement p |}.

Definition move_props (b1 b2 : nat) (p : Props) : Props :=
  let mv := move_output b1 b2 in
  match p with
  | VpcProps c h s t => VpcProps c h s t
  | InternetGatewayProps v => InternetGatewayProps (mv v)
  | SubnetProps v c az pub => SubnetProps (mv v) c az pub
  | RouteTableProps v rs => RouteTableProps (mv v) (map (move_route b1 b2) <$> rs)
  | RouteTableAssociationProps sn rt => RouteTableAssociationProps (mv sn) (mv rt)
  | EipProps d => EipProps d
  | NatGatewayProps a sn => NatGatewayProps (mv a) (mv sn)
  | DefaultSecurityGroupProps v eg => DefaultSecurityGroupProps (mv v) eg
  | LogGroupProps nm d => LogGroupProps nm d
  | RoleProps a => RoleProps a
  | RolePolicyProps r pol => RolePolicyProps (mv r) (move_policy b1 b2 pol)
  | FlowLogProps v t d r => FlowLogProps (mv v) t (mv d) (mv r)
  end.

(** [t1], [t2]: the positions of the two component registrations. *)
Definition move_resource (b1 b2 t1 t2 : nat) (r : Resource) : Resource :=
  {| res_name := res_name r;
     res_props := move_props b1 b2 (res_props r);
     res_tags := res_tags r;
     res_parent := move t1 t2 (res_parent r) |}.

Definition move_outputs (b1 b2 : nat) (o : Outputs) : Outputs :=
  let mv := move_output b1 b2 in
  {| vpcId := mv (vpcId o);
     vpcCidr := mv (vpcCidr o);
     publicSubnetIds := mv <$> publicSubnetIds o;
     privateSubnetIds := mv <$> privateSubnetIds o;
     publicRouteTableId := mv (publicRouteTableId o);
     privateRouteTableIds := mv <$> privateRouteTableIds o;
     natGatewayIds := mv <$> natGatewayIds o;
     internetGatewayId := mv (internetGatewayId o);
     flowLogId := mv (flowLogId o) |}.

(** ** The example programs *)

(** The advanced example of the repository: three zones and production
    settings. *)
Definition advanced_args : VpcArgs :=
  {| cidrBlock := Some "172.16.0.0/16";
     availabilityZones := Some ["us-east-1a"; "us-east-1b"; "us-east-1c"];
     publicSubnetCidrs := Some ["172.16.1.0/24"; "172.16.2.0/24"; "172.16.3.0/24"];
     privateSubnetCidrs := Some ["172.16.11.0/24"; "172.16.12.0/24"; "172.16.13.0/24"];
     environment := Some "production";
     project := Some "enterprise-platform";
     instanceTenancy := Some "default";
     enableNatGateway := Some true;
     enableFlowLogs := Some true;
     flowLogRetentionDays := Some (Num 30);
     tags := Some (<["Owner" := "platform-team"]>
                     (<["CostCenter" := "platform"]>
                        (<["Compliance" := "pci-dss"]>
                           (<["Backup" := "daily"]>
                              (<["Monitoring" := "enabled"]> ∅))))) |}.

Definition three_zones : list string := ["us-east-1a"; "us-east-1b"; "us-east-1c"].

(** [new Vpc("example-vpc", {...})] and [new Vpc("advanced-vpc", {...})];
    the programs then export fields of the result. *)
Definition basic_example : M Outputs := constructor "example-vpc" basic_args None.
Definition advanced_example : M Outputs :=
  constructor "advanced-vpc" advanced_args None.

(** ** Further observations *)

(** The strings the pattern of [validateCidrBlock] lets through: four runs
    of one to three digits separated by dots, a slash, one or two digits. *)
Definition cidr_shape (s : string) : Prop :=
  ∃ a b c d p,
    s = a +:+ "." +:+ b +:+ "." +:+ c +:+ "." +:+ d +:+ "/" +:+ p
    ∧ digits_within 1 3 a ∧ digits_within 1 3 b ∧ digits_within 1 3 c
    ∧ digits_within 1 3 d ∧ digits_within 1 2 p.

(** The three messages of [validateCidrBlock]. *)
Definition format_message (name : string) : string :=
  name +:+ " must be a valid CIDR block (e.g., 10.0.0.0/16)".
Definition prefix_message (name : string) : string :=
  name +:+ " prefix must be between 8 and 30".
Definition address_message (name : string) : string :=
  name +:+ " contains invalid IP address".

(** The labels [validateArgs] gives the subnet blocks. *)
Definition public_label (index : nat) : string :=
  "Public subnet " +:+ Str.of_nat index +:+ " CIDR".
Definition private_label (index : nat) : string :=
  "Private subnet " +:+ Str.of_nat index +:+ " CIDR".

Definition with_subnets (ps qs : option (list string)) (args : VpcArgs) : VpcArgs :=
  {| cidrBlock := cidrBlock args;
     availabilityZones := availabilityZones args;
     publicSubnetCidrs := ps;
     privateSubnetCidrs := qs;
     environment := environment args;
     project := project args;
     instanceTenancy := instanceTenancy args;
     enableNatGateway := enableNatGateway args;
     enableFlowLogs := enableFlowLogs args;
     flowLogRetentionDays := flowLogRetentionDays args;
     tags := tags args |}.

Definition with_flow_logs (f : option bool) (args : VpcArgs) : VpcArgs :=
  {| cidrBlock := cidrBlock args;
     availabilityZones := availabilityZones args;
     publicSubnetCidrs := publicSubnetCidrs args;
     privateSubnetCidrs := privateSubnetCidrs args;
     environment := environment args;
     project := project args;
     instanceTenancy := instanceTenancy args;
     enableNatGateway := enableNatGateway args;
     enableFlowLogs := f;
     flowLogRetentionDays := flowLogRetentionDays args;
     tags := tags args |}.

(** Two configurations the validator cannot tell apart: the same address
    block, CIDR lists and labels, and zone lists of the same length (or
    both missing). *)
Definition same_validated (a a' : VpcArgs) : Prop :=
  cidrBlock a = cidrBlock a'
  ∧ length <$> availabilityZones a = length <$> availabilityZones a'
  ∧ publicSubnetCidrs a = publicSubnetCidrs a'
  ∧ privateSubnetCidrs a = privateSubnetCidrs a'
  ∧ environment a = environment a'
  ∧ project a = project a'.

(** The deferred values the properties of a resource hold, each with the
    kind of resource the property is meant for ([vpcId] a network,
    [subnetId] a subnet, [allocationId] an elastic address, ...). *)
Definition route_wires (r : Route) : list (Output * Kind) :=
  match route_gatewayId r with Some o => [(o, KInternetGateway)] | None => [] end
  ++ match route_natGatewayId r with Some o => [(o, KNatGateway)] | None => [] end.

Definition wires (p : Props) : list (Output * Kind) :=
  match p with
  | VpcProps _ _ _ _ => []
  | InternetGatewayProps v => [(v, KVpc)]
  | SubnetProps v _ _ _ => [(v, KVpc)]
  | RouteTableProps v rs => (v, KVpc) :: concat (map route_wires (default [] rs))
  | RouteTableAssociationProps sn rt => [(sn, KSubnet); (rt, KRouteTable)]
  | EipProps _ => []
  | NatGatewayProps a sn => [(a, KEip); (sn, KSubnet)]
  | DefaultSecurityGroupProps v _ => [(v, KVpc)]
  | LogGroupProps _ _ => []
  | RoleProps _ => []
  | RolePolicyProps r pol =>
      (r, KRole) :: map (λ s, (stmt_Resource s, KLogGroup)) (policy_Statement pol)
  | FlowLogProps v _ d r => [(v, KVpc); (d, KLogGroup); (r, KRole)]
  end.

(** The identity the engine knows a resource by: its type and logical
    name. *)
Definition urn (r : Resource) : Kind * string :=
  (kind_of (res_props r), res_name r).

(** The tagging convention of the component, for a resource other than the
    network: [Environment], [Project] and [ManagedBy] are always set, from
    the two labels of the configuration and the constant "pulumi"; [Name],
    when set, is the logical name, and only the log sink and the role go
    without; a subnet's [Type] says whether it maps public addresses.
    Associations and the role policy carry no tags at all. *)
Definition tags_follow_convention (env prj : string) (r : Resource) : Prop :=
  let k := kind_of (res_props r) in
  match res_tags r with
  | None => k = KRouteTableAssociation ∨ k = KRolePolicy
  | Some t =>
      k ≠ KRouteTableAssociation ∧ k ≠ KRolePolicy
      ∧ (k ≠ KVpc →
         t !! "Environment" = Some (Some env)
         ∧ t !! "Project" = Some (Some prj)
         ∧ t !! "ManagedBy" = Some (Some "pulumi")
         ∧ t !! "Name"
           = (if bool_decide (k = KLogGroup ∨ k = KRole) then None
              else Some (Some (res_name r)))
         ∧ match res_props r with
           | SubnetProps _ _ _ pub =>
               t !! "Type" = Some (Some (if pub then "public" else "private"))
           | _ => True
           end)
  end.

(** ** Theory of strings and patterns *)

Section StringFacts.

Local Arguments String.append !_ _ / : simpl nomatch.

Lemma append_empty_r (s : string) : s +:+ EmptyString = s.
Proof. induction s; simpl; congruence. Qed.

Lemma append_assoc (a b c : string) : (a +:+ b) +:+ c = a +:+ b +:+ c.
Proof. induction a; simpl; congruence. Qed.

Lemma append_eq_empty (a b : string) :
  a +:+ b = EmptyString → a = EmptyString ∧ b = EmptyString.
Proof. destruct a; simpl; [auto | discriminate]. Qed.

Lemma append_eq_cons (a b : string) c s :
  a +:+ b = String c s →
  (a = EmptyString ∧ b = String c s) ∨ (∃ a', a = String c a' ∧ s = a' +:+ b).
Proof.
  destruct a as [|d a']; simpl; intros H; [by left |].
  right. inversion H; subst. by exists a'.
Qed.

Lemma length_append (a b : string) :
  String.length (a +:+ b) = (String.length a + String.length b)%nat.
Proof. induction a; simpl; congruence. Qed.

Lemma all_digits_append (a b : string) :
  Str.all_digits (a +:+ b) = Str.all_digits a && Str.all_digits b.
Proof.
  induction a as [|c a IH]; simpl; [done |].
  rewrite IH. by rewrite andb_assoc.
Qed.

Lemma contains_append c (a b : string) :
  Str.contains c (a +:+ b) = Str.contains c a || Str.contains c b.
Proof.
  induction a as [|d a IH]; simpl; [done |].
  rewrite IH. by rewrite orb_assoc.
Qed.

Lemma digits_contain_no (c : ascii) (s : string) :
  Str.is_digit c = false → Str.all_digits s = true → Str.contains c s = false.
Proof.
  intros Hc. induction s as [|d s IH]; simpl; [done |].
  intros [Hd Hs]%andb_true_iff. rewrite (IH Hs), orb_false_r.
  apply bool_decide_eq_false. intros ->. congruence.
Qed.

Lemma split_not_nil sep s : Str.split sep s ≠ [].
Proof.
  induction s as [|c s IH]; simpl; [done |].
  case_bool_decide; [done |]. by destruct (Str.split sep s).
Qed.

Lemma split_without sep s :
  Str.contains sep s = false → Str.split sep s = [s].
Proof.
  induction s as [|c s IH]; simpl; [done |].
  intros [Hc Hs]%orb_false_iff. rewrite Hc, (IH Hs). done.
Qed.

Lemma split_at_first sep (a b : string) :
  Str.contains sep a = false →
  Str.split sep (a +:+ String sep b) = a :: Str.split sep b.
Proof.
  induction a as [|c a IH]; simpl.
  - intros _. by rewrite bool_decide_eq_true_2.
  - intros [Hc Ha]%orb_false_iff. rewrite Hc, (IH Ha). done.
Qed.

Lemma leading_digits_all s :
  Str.all_digits s = true → Str.leading_digits s = s.
Proof.
  induction s as [|c s IH]; simpl; [done |].
  intros [Hc Hs]%andb_true_iff. rewrite Hc, (IH Hs). done.
Qed.

Lemma digit_val_range c : Str.is_digit c = true → 0 ≤ Str.digit_val c ≤ 9.
Proof.
  unfold Str.is_digit, Str.digit_val. cbv zeta.
  intros [H1 H2]%andb_true_iff.
  apply Nat.leb_le in H1. apply Nat.leb_le in H2. lia.
Qed.

Lemma decimal_from_nonneg s acc :
  0 ≤ acc → Str.all_digits s = true → 0 ≤ Str.decimal_from acc s.
Proof.
  revert acc. induction s as [|c s IH]; simpl; intros acc Hacc; [done |].
  intros [Hc Hs]%andb_true_iff. apply IH; [| done].
  pose proof (digit_val_range c Hc). lia.
Qed.

Lemma decimal_nonneg s : Str.all_digits s = true → 0 ≤ Str.decimal s.
Proof. apply decimal_from_nonneg. lia. Qed.

End StringFacts.

Module RegexFacts.
Import Regex.

Local Arguments String.append !_ _ / : simpl nomatch.

Lemma matches_Eps s : matches Eps s ↔ s = EmptyString.
Proof. split; [by inversion 1 | intros ->; constructor]. Qed.

Lemma matches_Never s : ¬ matches Never s.
Proof. inversion 1. Qed.

Lemma matches_Class p s :
  matches (Class p) s ↔ ∃ c, s = String c EmptyString ∧ p c = true.
Proof.
  split.
  - inversion 1; subst. eauto.
  - intros (c & -> & Hc). by constructor.
Qed.

Lemma matches_Seq r1 r2 s :
  matches (Seq r1 r2) s ↔ ∃ s1 s2, s = s1 +:+ s2 ∧ matches r1 s1 ∧ matches r2 s2.
Proof.
  split.
  - inversion 1; subst. eauto.
  - intros (s1 & s2 & -> & H1 & H2). by constructor.
Qed.

Lemma matches_Alt r1 r2 s :
  matches (Alt r1 r2) s ↔ matches r1 s ∨ matches r2 s.
Proof.
  split.
  - inversion 1; subst; auto.
  - intros [H|H]; [by apply MAltL | by apply MAltR].
Qed.

Lemma nullable_spec r : nullable r = true ↔ matches r EmptyString.
Proof.
  induction r as [| |p|r1 IH1 r2 IH2|r1 IH1 r2 IH2]; simpl.
  - split; [done | by intros ?%matches_Never].
  - by rewrite matches_Eps.
  - rewrite matches_Class. split; [done | by intros (c & ? & _)].
  - rewrite andb_true_iff, IH1, IH2, matches_Seq. split.
    + intros [H1 H2]. by exists EmptyString, EmptyString.
    + intros (s1 & s2 & Hs & H1 & H2).
      symmetry in Hs. apply append_eq_empty in Hs as [-> ->]. done.
  - by rewrite orb_true_iff, IH1, IH2, matches_Alt.
Qed.

Lemma deriv_spec r c s : matches (deriv c r) s ↔ matches r (String c s).
Proof.
  revert s. induction r as [| |p|r1 IH1 r2 IH2|r1 IH1 r2 IH2]; simpl; intros s.
  - split; by intros ?%matches_Never.
  - split; [by intros ?%matches_Never | by intros ?%matches_Eps].
  - rewrite matches_Class. destruct (p c) eqn:Hp.
    + rewrite matches_Eps. split.
      * intros ->. by exists c.
      * intros (d & [= -> ->] & _). done.
    + split; [by intros ?%matches_Never |].
      intros (d & [= -> ->] & ?). congruence.
  - assert (matches (Seq (deriv c r1) r2) s ∨
              (nullable r1 = true ∧ matches (deriv c r2) s)
            ↔ matches (Seq r1 r2) (String c s)) as Hkey.
    { rewrite !matches_Seq. split.
      - intros [(s1 & s2 & -> & H1 & H2) | [Hn H2]].
        + exists (String c s1), s2. by rewrite <- IH1.
        + exists EmptyString, (String c s). rewrite <- nullable_spec, <- IH2. done.
      - intros (s1 & s2 & Hs & H1 & H2).
        symmetry in Hs. apply append_eq_cons in Hs as [[-> ->] | (a' & -> & ->)].
        + right. by rewrite nullable_spec, IH2.
        + left. exists a', s2. by rewrite IH1. }
    rewrite <- Hkey. destruct (nullable r1).
    + rewrite matches_Alt. split; [intros [?|?]; auto | intros [?|[_ ?]]; auto].
    + split; [auto | intros [?|[? _]]; [done | discriminate]].
  - by rewrite !matches_Alt, IH1, IH2.
Qed.

Lemma test_spec r s : test r s = true ↔ matches r s.
Proof.
  revert r. induction s as [|c s IH]; simpl; intros r.
  - apply nullable_spec.
  - by rewrite IH, deriv_spec.
Qed.

Lemma matches_lit c s : matches (lit c) s ↔ s = String c EmptyString.
Proof.
  unfold lit. rewrite matches_Class. split.
  - intros (d & -> & Hd). by apply bool_decide_eq_true in Hd as ->.
  - intros ->. exists c. by rewrite bool_decide_eq_true_2.
Qed.

Lemma matches_power_digit n s :
  matches (power n digit) s ↔ Str.all_digits s = true ∧ String.length s = n.
Proof.
  revert s. induction n as [|n IH]; simpl; intros s.
  - rewrite matches_Eps. split; [by intros -> |].
    intros [_ Hl]. by destruct s.
  - rewrite matches_Seq. split.
    + intros (s1 & s2 & -> & H1 & H2).
      apply matches_Class in H1 as (c & -> & Hc).
      apply IH in H2 as [H2 <-]. simpl. by rewrite Hc, H2.
    + intros [Hd Hl]. destruct s as [|c s]; [done |].
      simpl in Hd. apply andb_true_iff in Hd as [Hc Hs].
      exists (String c EmptyString), s. split; [done |]. split.
      * apply matches_Class. eauto.
      * apply IH. split; [done |]. simpl in Hl. lia.
Qed.

Lemma matches_upto_digit n s :
  matches (upto n digit) s ↔ Str.all_digits s = true ∧ (String.length s ≤ n)%nat.
Proof.
  revert s. induction n as [|n IH]; simpl; intros s.
  - rewrite matches_Eps. split; [by intros -> |].
    intros [_ Hl]. destruct s; [done | simpl in Hl; lia].
  - rewrite matches_Alt, matches_Eps, matches_Seq. split.
    + intros [-> | (s1 & s2 & -> & H1 & H2)]; [simpl; split; [done | lia] |].
      apply matches_Class in H1 as (c & -> & Hc).
      apply IH in H2 as [H2 Hl]. simpl. rewrite Hc, H2. split; [done | lia].
    + intros [Hd Hl]. destruct s as [|c s]; [by left |]. right.
      simpl in Hd. apply andb_true_iff in Hd as [Hc Hs].
      exists (String c EmptyString), s. split; [done |]. split.
      * apply matches_Class. eauto.
      * apply IH. split; [done |]. simpl in Hl. lia.
Qed.

(** A string of digits can be cut after its first [n] characters. *)
Lemma digits_cut n s :
  Str.all_digits s = true → (n ≤ String.length s)%nat →
  ∃ s1 s2, s = s1 +:+ s2 ∧ Str.all_digits s1 = true ∧ String.length s1 = n
           ∧ Str.all_digits s2 = true.
Proof.
  revert s. induction n as [|n IH]; intros s Hd Hl.
  - by exists EmptyString, s.
  - destruct s as [|c s]; [simpl in Hl; lia |].
    simpl in Hd. apply andb_true_iff in Hd as [Hc Hs].
    destruct (IH s Hs) as (s1 & s2 & -> & H1 & Hl1 & H2); [simpl in Hl; lia |].
    exists (String c s1), s2. simpl. rewrite Hc, H1, Hl1. done.
Qed.

Lemma matches_range_digit lo hi s :
  (lo ≤ hi)%nat →
  matches (range lo hi digit) s
  ↔ Str.all_digits s = true ∧ (lo ≤ String.length s ≤ hi)%nat.
Proof.
  intros Hle. unfold range. rewrite matches_Seq. split.
  - intros (s1 & s2 & -> & H1 & H2).
    apply matches_power_digit in H1 as [H1 Hl1].
    apply matches_upto_digit in H2 as [H2 Hl2].
    rewrite all_digits_append, length_append, H1, H2. split; [done | lia].
  - intros [Hd [Hl1 Hl2]].
    destruct (digits_cut lo s Hd Hl1) as (s1 & s2 & -> & H1 & Hlen & H2).
    exists s1, s2. split; [done |]. split.
    + by apply matches_power_digit.
    + apply matches_upto_digit. split; [done |].
      rewrite length_append in Hl2. lia.
Qed.

End RegexFacts.

(** ** Theory of the CIDR validator *)

Section CidrFacts.

(** The strings the pattern lets through. *)
Lemma cidrRegex_language s :
  Regex.test cidrRegex s = true ↔
  ∃ a b c d p,
    s = a +:+ "." +:+ b +:+ "." +:+ c +:+ "." +:+ d +:+ "/" +:+ p
    ∧ digits_within 1 3 a ∧ digits_within 1 3 b ∧ digits_within 1 3 c
    ∧ digits_within 1 3 d ∧ digits_within 1 2 p.
Proof.
  rewrite RegexFacts.test_spec. unfold cidrRegex, digits_within. simpl Regex.power.
  split.
  - intros H.
    apply RegexFacts.matches_Seq in H as (s1 & s2 & -> & H1 & H2).
    apply RegexFacts.matches_Seq in H1 as (x1 & s1' & -> & Hx1 & H1).
    apply RegexFacts.matches_Seq in H1 as (x2 & s1'' & -> & Hx2 & H1).
    apply RegexFacts.matches_Seq in H1 as (x3 & e & -> & Hx3 & ->%RegexFacts.matches_Eps).
    apply RegexFacts.matches_Seq in Hx1 as (a & ? & -> & Ha & ->%RegexFacts.matches_lit).
    apply RegexFacts.matches_Seq in Hx2 as (b & ? & -> & Hb & ->%RegexFacts.matches_lit).
    apply RegexFacts.matches_Seq in Hx3 as (c & ? & -> & Hc & ->%RegexFacts.matches_lit).
    apply RegexFacts.matches_Seq in H2 as (d & s3 & -> & Hd & H2).
    apply RegexFacts.matches_Seq in H2 as (? & p & -> & ->%RegexFacts.matches_lit & Hp).
    apply RegexFacts.matches_range_digit in Ha, Hb, Hc, Hd, Hp; try lia.
    exists a, b, c, d, p. split; [| done].
    rewrite append_empty_r, !append_assoc. reflexivity.
  - intros (a & b & c & d & p & -> & Ha & Hb & Hc & Hd & Hp).
    apply RegexFacts.matches_range_digit in Ha, Hb, Hc, Hd, Hp; try lia.
    replace (a +:+ "." +:+ b +:+ "." +:+ c +:+ "." +:+ d +:+ "/" +:+ p)
      with (((a +:+ ".") +:+ (b +:+ ".") +:+ (c +:+ ".") +:+ EmptyString)
              +:+ d +:+ "/" +:+ p)
      by (rewrite append_empty_r, !append_assoc; reflexivity).
    repeat (apply Regex.MSeq); try done; try (by apply RegexFacts.matches_lit).
    constructor.
Qed.

Lemma digits_no_slash s : Str.all_digits s = true → Str.contains "/" s = false.
Proof. by apply digits_contain_no. Qed.

Lemma digits_no_dot s : Str.all_digits s = true → Str.contains "." s = false.
Proof. by apply digits_contain_no. Qed.

Lemma parseInt_digits s :
  Str.all_digits s = true → (1 ≤ String.length s)%nat →
  parseInt s = Num (Str.decimal s).
Proof.
  intros Hd Hl. unfold parseInt. rewrite (leading_digits_all s Hd).
  destruct s; [simpl in Hl; lia | done].
Qed.

Lemma Number_digits s : Str.all_digits s = true → Number s = Num (Str.decimal s).
Proof. intros Hd. unfold Number. by rewrite Hd. Qed.

(** What the validator computes once the pattern has matched. *)
Lemma validateCidrBlock_matched a b c d p name :
  digits_within 1 3 a → digits_within 1 3 b → digits_within 1 3 c →
  digits_within 1 3 d → digits_within 1 2 p →
  validateCidrBlock (a +:+ "." +:+ b +:+ "." +:+ c +:+ "." +:+ d +:+ "/" +:+ p) name
  = rbind (throw_if (bool_decide (Str.decimal p < 8) || bool_decide (30 < Str.decimal p))
             (name +:+ " prefix must be between 8 and 30")) (λ _,
    throw_if (bool_decide (255 < Str.decimal a) || bool_decide (255 < Str.decimal b)
              || bool_decide (255 < Str.decimal c) || bool_decide (255 < Str.decimal d))
      (name +:+ " contains invalid IP address")).
Proof.
  intros Ha Hb Hc Hd Hp.
  assert (Regex.test cidrRegex
            (a +:+ "." +:+ b +:+ "." +:+ c +:+ "." +:+ d +:+ "/" +:+ p) = true) as Ht.
  { apply cidrRegex_language. by exists a, b, c, d, p. }
  destruct Ha as [Ha La], Hb as [Hb Lb], Hc as [Hc Lc], Hd as [Hd Ld], Hp as [Hp Lp].
  unfold validateCidrBlock. rewrite Ht. simpl throw_if. simpl rbind.
  replace (a +:+ "." +:+ b +:+ "." +:+ c +:+ "." +:+ d +:+ "/" +:+ p)
    with ((a +:+ "." +:+ b +:+ "." +:+ c +:+ "." +:+ d) +:+ String "/" p)
    by (rewrite !append_assoc; reflexivity).
  rewrite split_at_first.
  2:{ rewrite !contains_append, (digits_no_slash a), (digits_no_slash b),
        (digits_no_slash c), (digits_no_slash d) by done. reflexivity. }
  rewrite (split_without "/" p) by (by apply digits_no_slash).
  cbv zeta. cbn [lookup list_lookup]. unfold to_text, id. cbn [default prop_of rbind].
  unfold id.
  rewrite (parseInt_digits p Hp) by lia.
  change (a +:+ "." +:+ b +:+ "." +:+ c +:+ "." +:+ d)
    with (a +:+ String "." (b +:+ String "." (c +:+ String "." d))).
  rewrite !split_at_first, split_without by (by apply digits_no_dot).
  simpl map. rewrite !Number_digits by done.
  unfold some_out_of_range, num_gt, num_lt. simpl existsb.
  pose proof (decimal_nonneg a Ha). pose proof (decimal_nonneg b Hb).
  pose proof (decimal_nonneg c Hc). pose proof (decimal_nonneg d Hd).
  rewrite !(bool_decide_eq_false_2 (Str.decimal _ < 0)) by lia.
  simpl. by rewrite orb_false_r, !orb_assoc.
Qed.

(** The validator returns or raises an [Error]: no step of it reads
    through a missing element. *)
Lemma validateCidrBlock_outcome cidr name :
  validateCidrBlock cidr name = Ok tt
  ∨ validateCidrBlock cidr name
    = Throw (Error (name +:+ " must be a valid CIDR block (e.g., 10.0.0.0/16)"))
  ∨ validateCidrBlock cidr name
    = Throw (Error (name +:+ " prefix must be between 8 and 30"))
  ∨ validateCidrBlock cidr name
    = Throw (Error (name +:+ " contains invalid IP address")).
Proof.
  destruct (Regex.test cidrRegex cidr) eqn:Ht.
  - apply cidrRegex_language in Ht as (a & b & c & d & p & -> & Ha & Hb & Hc & Hd & Hp).
    rewrite validateCidrBlock_matched by done.
    destruct (_ || _); simpl; [auto |].
    destruct (_ || _); simpl; auto.
  - right; left. unfold validateCidrBlock. by rewrite Ht.
Qed.

Lemma validateCidrBlock_violation cidr name :
  validateCidrBlock cidr name
  = match cidr_violation name cidr with
    | Some m => Throw (Error m)
    | None => Ok tt
    end.
Proof.
  unfold cidr_violation.
  destruct (validateCidrBlock_outcome cidr name) as [H | [H | [H | H]]];
    by rewrite H.
Qed.

Lemma validateCidrBlock_iff cidr name :
  validateCidrBlock cidr name = Ok tt ↔ cidr_syntax cidr.
Proof.
  split.
  - intros H. destruct (Regex.test cidrRegex cidr) eqn:Ht.
    + apply cidrRegex_language in Ht
        as (a & b & c & d & p & -> & Ha & Hb & Hc & Hd & Hp).
      rewrite validateCidrBlock_matched in H by done.
      destruct (bool_decide (Str.decimal p < 8) || bool_decide (30 < Str.decimal p))
        eqn:E1; [discriminate |].
      simpl in H.
      destruct (bool_decide (255 < Str.decimal a) || bool_decide (255 < Str.decimal b)
                || bool_decide (255 < Str.decimal c) || bool_decide (255 < Str.decimal d))
        eqn:E2; [discriminate |].
      apply orb_false_iff in E1 as [E1 E1'].
      apply orb_false_iff in E2 as [E2 E5].
      apply orb_false_iff in E2 as [E2 E4].
      apply orb_false_iff in E2 as [E2 E3].
      apply bool_decide_eq_false in E1, E1', E2, E3, E4, E5.
      exists a, b, c, d, p. split; [done |].
      unfold is_octet, is_prefix_length.
      destruct Ha as [Ha ?], Hb as [Hb ?], Hc as [Hc ?], Hd as [Hd ?], Hp as [Hp ?].
      pose proof (decimal_nonneg a Ha). pose proof (decimal_nonneg b Hb).
      pose proof (decimal_nonneg c Hc). pose proof (decimal_nonneg d Hd).
      repeat split; try done; lia.
    + unfold validateCidrBlock in H. by rewrite Ht in H.
  - intros (a & b & c & d & p & -> & Ha & Hb & Hc & Hd & Hp).
    destruct Ha as (Ha & La & Va), Hb as (Hb & Lb & Vb), Hc as (Hc & Lc & Vc),
      Hd as (Hd & Ld & Vd), Hp as (Hp & Lp & Vp).
    rewrite validateCidrBlock_matched by done.
    rewrite !bool_decide_eq_false_2 by lia. done.
Qed.

End CidrFacts.

(** ** Theory of the argument validator *)

Section ValidatorFacts.

Lemma rbind_throw_if {B} (c : bool) msg (k : unit → result B) :
  rbind (throw_if c msg) k = if c then Throw (Error msg) else k tt.
Proof. by destruct c. Qed.

Lemma first_violation_violated c msg l :
  first_violation (violated c msg :: l) = if c then Some msg else first_violation l.
Proof. by destruct c. Qed.

Lemma first_violation_app l1 l2 :
  first_violation (l1 ++ l2)
  = match first_violation l1 with
    | Some m => Some m
    | None => first_violation l2
    end.
Proof. induction l1 as [|[m|] l1 IH]; simpl; auto. Qed.

Lemma str_falsy_decide (o : option string) :
  negb (str_truthy o) = bool_decide (o = None ∨ o = Some EmptyString).
Proof.
  destruct o as [s|]; simpl.
  - rewrite negb_involutive. apply bool_decide_ext. split.
    + intros ->. by right.
    + intros [? | [= ->]]; done.
  - done.
Qed.

Lemma zones_missing_decide (o : option (list string)) :
  match o with None => true | Some zs => (length zs =? 0)%nat end
  = bool_decide (o = None ∨ o = Some []).
Proof.
  by destruct o as [[|z zs]|].
Qed.

Lemma length_mismatch_decide (xs : option (list string)) (zs : list string) :
  length_mismatch xs (Some zs)
  = Ok (bool_decide (length <$> xs ≠ Some (length zs))).
Proof.
  destruct xs as [l|]; simpl; f_equal.
  - destruct (Nat.eqb_spec (length l) (length zs)) as [E | E]; simpl; symmetry.
    + apply bool_decide_eq_false_2. rewrite E. by intros [].
    + apply bool_decide_eq_true_2. congruence.
Qed.

Lemma forEach_from_violations (label : nat → string) (i : nat) (l : list string) :
  forEach_from (λ cidr index, validateCidrBlock cidr (label index)) i l
  = match first_violation (imap (λ j cidr, cidr_violation (label (i + j)%nat) cidr) l) with
    | Some m => Throw (Error m)
    | None => Ok tt
    end.
Proof.
  revert i. induction l as [|c l IH]; intros i; simpl; [done |].
  rewrite validateCidrBlock_violation, Nat.add_0_r.
  destruct (cidr_violation (label i) c); simpl; [done |].
  rewrite IH. erewrite imap_ext; [done |].
  intros j x _. simpl. by rewrite Nat.add_succ_r.
Qed.

Lemma forEach_violations (label : nat → string) (l : list string) :
  forEach (λ cidr index, validateCidrBlock cidr (label index)) l
  = match first_violation (imap (λ j cidr, cidr_violation (label j) cidr) l) with
    | Some m => Throw (Error m)
    | None => Ok tt
    end.
Proof. apply (forEach_from_violations label 0). Qed.

(** The validator raises the first violated constraint of [checks], and
    returns when there is none. *)
Lemma validateArgs_checks args :
  validateArgs args
  = match first_violation (checks args) with
    | Some m => Throw (Error m)
    | None => Ok tt
    end.
Proof.
  unfold validateArgs, checks.
  rewrite str_falsy_decide, zones_missing_decide, !rbind_throw_if.
  rewrite <- !app_comm_cons, !first_violation_violated.
  case_bool_decide as Hc; [done |].
  case_bool_decide as Hz; [done |].
  destruct (availabilityZones args) as [zs|] eqn:Ez; [| by destruct Hz; left].
  rewrite !length_mismatch_decide. simpl rbind at 1. simpl default.
  rewrite rbind_throw_if.
  case_bool_decide as Hp; [done |]. simpl rbind at 1.
  rewrite rbind_throw_if.
  case_bool_decide as Hq; [done |].
  rewrite !str_falsy_decide.
  case_bool_decide as He; [done |].
  case_bool_decide as Hj; [done |].
  rewrite validateCidrBlock_violation. simpl first_violation.
  destruct (cidr_violation "VPC CIDR" (to_text (cidrBlock args))); simpl; [done |].
  destruct (publicSubnetCidrs args) as [ps|] eqn:Ep; [| done].
  destruct (privateSubnetCidrs args) as [qs|] eqn:Eq; [| done].
  simpl. rewrite first_violation_app.
  rewrite (forEach_violations (λ i, "Public subnet " +:+ Str.of_nat i +:+ " CIDR")).
  destruct (first_violation (imap _ ps)); simpl; [done |].
  apply (forEach_violations (λ i, "Private subnet " +:+ Str.of_nat i +:+ " CIDR")).
Qed.

End ValidatorFacts.

(** ** Theory of the construction monad *)

Section MonadFacts.

Lemma bind_run {A B} (m : M A) (k : A → M B) (e e' : Engine) (a : A) :
  m e = (Ok a, e') → (m ≫= k) e = k a e'.
Proof. intros H. unfold mbind, M_bind. by rewrite H. Qed.

Lemma bind_throw {A B} (m : M A) (k : A → M B) (e e' : Engine) (x : Exn) :
  m e = (Throw x, e') → (m ≫= k) e = (Throw x, e').
Proof. intros H. unfold mbind, M_bind. by rewrite H. Qed.

Lemma bind_assoc_run {A B C} (m : M A) (k1 : A → M B) (k2 : B → M C) (e : Engine) :
  ((m ≫= k1) ≫= k2) e = (m ≫= λ x, k1 x ≫= k2) e.
Proof. unfold mbind, M_bind. by destruct (m e) as [[a|x] e']. Qed.

(** The base class constructor on a named and on an unnamed component. *)
Lemma super_named (type name : string) args opts (e : Engine) :
  type ≠ "" → name ≠ "" →
  super type name args opts e
  = (Ok (length (components e)),
     {| components := components e ++ [{| comp_type := type; comp_name := name;
                                          comp_opts := opts |}];
        declared := declared e;
        registered := registered e |}).
Proof.
  intros Ht Hn. unfold super.
  rewrite (bool_decide_eq_false_2 _ Ht). by rewrite (bool_decide_eq_false_2 _ Hn).
Qed.

Lemma super_unnamed (type : string) args opts (e : Engine) :
  super type "" args opts e = (Throw ResourceError, e).
Proof. unfold super. by case_bool_decide. Qed.

Lemma deref_seq (s len i : nat) :
  (i < len)%nat → deref (seq s len) i = Ok (s + i)%nat.
Proof. intros Hi. unfold deref. by rewrite lookup_seq_lt. Qed.

(** A [map] whose callback declares one resource per element appends
    them in order and returns their positions. *)
Lemma mapM_from_declares {A} (f : A → nat → M nat) (mk : nat → A → Resource)
    (xs : list A) (i : nat) cs ds rg :
  (∀ j x ds', xs !! j = Some x →
     f x (i + j)%nat (Build_Engine cs ds' rg)
     = (Ok (length ds'), Build_Engine cs (ds' ++ [mk (i + j)%nat x]) rg)) →
  mapM_from f i xs (Build_Engine cs ds rg)
  = (Ok (seq (length ds) (length xs)),
     Build_Engine cs (ds ++ imap (λ j, mk (i + j)%nat) xs) rg).
Proof.
  revert i ds. induction xs as [|x xs IH]; intros i ds Hf; simpl.
  - by rewrite app_nil_r.
  - pose proof (Hf 0%nat x ds eq_refl) as H0. rewrite Nat.add_0_r in H0.
    rewrite (bind_run _ _ _ _ _ H0).
    assert (∀ j y ds', xs !! j = Some y →
              f y (S i + j)%nat (Build_Engine cs ds' rg)
              = (Ok (length ds'), Build_Engine cs (ds' ++ [mk (S i + j)%nat y]) rg))
      as Hf'.
    { intros j y ds' Hj. replace (S i + j)%nat with (i + S j)%nat by lia.
      by apply Hf. }
    rewrite (bind_run _ _ _ _ _ (IH (S i) (ds ++ [mk i x]) Hf')).
    unfold mret, M_ret. rewrite length_app, Nat.add_1_r, <- app_assoc. simpl.
    rewrite Nat.add_0_r. do 4 f_equal.
    apply imap_ext. intros j y _. simpl. by rewrite Nat.add_succ_r.
Qed.

Lemma mapM_declares {A} (f : A → nat → M nat) (mk : nat → A → Resource)
    (xs : list A) cs ds rg :
  (∀ j x ds', xs !! j = Some x →
     f x j (Build_Engine cs ds' rg)
     = (Ok (length ds'), Build_Engine cs (ds' ++ [mk j x]) rg)) →
  mapM f xs (Build_Engine cs ds rg)
  = (Ok (seq (length ds) (length xs)), Build_Engine cs (ds ++ imap mk xs) rg).
Proof. intros Hf. by apply (mapM_from_declares f mk xs 0). Qed.

(** Mapping over the positions of a segment is mapping over the zones. *)
Lemma imap_seq_zones {A B} (g : nat → nat → B) (s : nat) (zs : list A) :
  imap g (seq s (length zs)) = imap (λ i _, g i (s + i)%nat) zs.
Proof.
  apply list_eq. intros i. rewrite !list_lookup_imap.
  destruct (zs !! i) as [z|] eqn:Hz.
  - rewrite lookup_seq_lt by (by eapply lookup_lt_Some). done.
  - rewrite lookup_seq_ge by (by apply lookup_ge_None). done.
Qed.

Lemma map_seq_zones {A B} (g : nat → B) (s : nat) (zs : list A) :
  map g (seq s (length zs)) = imap (λ i _, g (s + i)%nat) zs.
Proof.
  change (map g) with (fmap (M:=list) g). by rewrite <- imap_seq.
Qed.

End MonadFacts.

(** ** Theory of the constructor *)

Section ConstructorFacts.

Lemma valid_shape args :
  validateArgs args = Ok tt →
  ∃ zs ps qs,
    availabilityZones args = Some zs ∧ publicSubnetCidrs args = Some ps
    ∧ privateSubnetCidrs args = Some qs
    ∧ length ps = length zs ∧ length qs = length zs ∧ zs ≠ [].
Proof.
  rewrite validateArgs_checks. unfold checks.
  rewrite <- !app_comm_cons, !first_violation_violated.
  case_bool_decide as Hc; [done |].
  case_bool_decide as Hz; [done |].
  case_bool_decide as Hp; [done |].
  case_bool_decide as Hq; [done |].
  intros _.
  destruct (availabilityZones args) as [zs|]; [| by destruct Hz; left].
  destruct (publicSubnetCidrs args) as [ps|]; [| done].
  destruct (privateSubnetCidrs args) as [qs|]; [| done].
  exists zs, ps, qs. simpl in Hp, Hq.
  injection Hp as Hp. injection Hq as Hq.
  repeat split; try done. intros ->. destruct Hz. by right.
Qed.

Ltac norm_len :=
  rewrite ?length_app, ?length_imap, ?length_seq; cbn [length].

Ltac step :=
  rewrite ?bind_assoc_run;
  erewrite bind_run by reflexivity;
  cbv beta; cbn [declared components registered]; norm_len.

Ltac in_range :=
  match goal with
  | H : _ !! _ = Some _ |- _ =>
      apply lookup_lt_Some in H; rewrite ?length_seq in H; lia
  end.

Ltac step_map tac :=
  rewrite ?bind_assoc_run;
  erewrite bind_run;
  [| eapply mapM_declares; intros ? ? ? ?; tac; reflexivity];
  cbv beta; norm_len.

Ltac positions :=
  unfold at_flow_log, at_policy, at_role, at_log_group, at_sg, at_private_rta,
    at_private_rt, nat_size, at_nat, at_eip, at_public_rta, at_public_rt,
    at_private, at_public, at_igw, at_vpc, id_of, arn_of.

Ltac same :=
  repeat match goal with
         | |- @eq nat _ _ => lia
         | |- imap _ _ = imap _ _ => apply imap_ext; intros ? ? _; cbv beta
         | |- _ => progress f_equal
         end.

Lemma constructor_run name args opts zs e :
  name ≠ "" →
  validateArgs args = Ok tt →
  availabilityZones args = Some zs →
  constructor name args opts e
  = (Ok (outputs args (length (declared e)) zs), after_run name args opts zs e).
Proof.
  intros Hname Hv Hz.
  destruct (valid_shape args Hv) as (zs' & ps & qs & Hz' & Hp & Hq & Lp & Lq & _).
  rewrite Hz in Hz'. injection Hz' as <-.
  destruct e as [cs ds rg]. unfold constructor, after_run, vpc_component.
  cbn [declared components registered].
  erewrite bind_run by (by apply super_named).
  cbv beta; cbn [declared components registered].
  rewrite Hv. step. step. step. rewrite Hz. step.
  step_map ltac:(rewrite Hp).
  step_map ltac:(rewrite Hq).
  step.
  step_map idtac.
  destruct (not_false (enableNatGateway args)) eqn:Hnat;
    [ step_map idtac;
      step_map ltac:(rewrite !deref_seq by in_range);
      step_map ltac:(rewrite !deref_seq by in_range)
    | step_map idtac ];
    step;
    step_map ltac:(rewrite !deref_seq by in_range);
    step;
    (destruct (not_false (enableFlowLogs args)) eqn:Hflow;
     [ do 5 step | step ]);
    step; unfold mret, M_ret.
  all: unfold outputs, graph, nat_part, flow_part; rewrite ?Hnat, ?Hflow.
  all: rewrite ?imap_seq_zones, ?map_seq_zones, <- ?app_assoc; cbn [app].
  all: unfold flow_log_res, policy_res, role_res, log_group_res, sg_res,
         private_rta_res, private_rt_res, nat_res, eip_res, public_rta_res,
         public_rt_res, private_subnet_res, public_subnet_res, igw_res, vpc_res,
         res, tags_named, tags_typed, tags_plain.
  all: positions; rewrite ?Hnat, ?Hp, ?Hq; cbn [default].
  all: same.
Qed.

(** A configuration the validator refuses: the error leaves the
    constructor right after the component's own registration. *)
Lemma constructor_refused name args opts e x :
  name ≠ "" →
  validateArgs args = Throw x →
  constructor name args opts e
  = (Throw x,
     {| components := components e ++ [vpc_component name opts];
        declared := declared e;
        registered := registered e |}).
Proof.
  intros Hname Hv. unfold constructor, vpc_component.
  erewrite bind_run by (by apply super_named).
  cbv beta. rewrite Hv.
  by erewrite bind_throw by reflexivity.
Qed.

(** Without a name the base class refuses the component: the validator is
    not reached and the registry is left as it was. *)
Lemma constructor_unnamed args opts e :
  constructor "" args opts e = (Throw ResourceError, e).
Proof.
  unfold constructor. by erewrite bind_throw by apply super_unnamed.
Qed.

End ConstructorFacts.

(** ** Theory of the declared graph *)

Section GraphFacts.

Variables (name : string) (args : VpcArgs) (this b : nat) (zs : list string).

Lemma Forall_imap {A} (P : Resource → Prop) (f : nat → A → Resource) (l : list A) :
  (∀ i x, l !! i = Some x → P (f i x)) → Forall P (imap f l).
Proof.
  intros H. apply Forall_lookup. intros i r Hr.
  apply list_lookup_imap_Some in Hr as (x & Hx & ->). by apply H.
Qed.

(** A property of every declared resource follows from the property of
    each kind of declaration. *)
Lemma graph_Forall (P : Resource → Prop) :
  P (vpc_res name args this) →
  P (igw_res name args this b) →
  (∀ i az, zs !! i = Some az → P (public_subnet_res name args this b i az)) →
  (∀ i az, zs !! i = Some az → P (private_subnet_res name args this b i az)) →
  P (public_rt_res name args this b) →
  (∀ i az, zs !! i = Some az → P (public_rta_res name this b zs i)) →
  (not_false (enableNatGateway args) = true →
   ∀ i az, zs !! i = Some az →
     P (eip_res name args this az) ∧ P (nat_res name args this b zs i az)) →
  (∀ i az, zs !! i = Some az → P (private_rt_res name args this b zs i az)) →
  (∀ i az, zs !! i = Some az → P (private_rta_res name args this b zs i)) →
  P (sg_res name args this b) →
  (not_false (enableFlowLogs args) = true →
   P (log_group_res name args this) ∧ P (role_res name args this)
   ∧ P (policy_res name args this b zs) ∧ P (flow_log_res name args this b zs)) →
  Forall P (graph name args this b zs).
Proof.
  intros Hvpc Higw Hpub Hpriv Hprt Hprta Hnat Hrt Hrta Hsg Hflow.
  unfold graph, nat_part, flow_part.
  repeat (apply Forall_app; split);
    try (apply Forall_imap; intros i az Hi; by eauto);
    try (repeat constructor; done).
  - destruct (not_false (enableNatGateway args)); [| constructor].
    apply Forall_app; split; apply Forall_imap; intros i az Hi;
      by apply (Hnat eq_refl i az).
  - destruct (not_false (enableFlowLogs args)); [| constructor].
    destruct (Hflow eq_refl) as (? & ? & ? & ?). by repeat constructor.
Qed.

Lemma count_kind_app k (l1 l2 : list Resource) :
  count_kind k (l1 ++ l2) = (count_kind k l1 + count_kind k l2)%nat.
Proof. unfold count_kind. by rewrite List.filter_app, length_app. Qed.

Lemma count_kind_imap {A} k k' (f : nat → A → Resource) (l : list A) :
  (∀ i x, kind_of (res_props (f i x)) = k') →
  count_kind k (imap f l) = if bool_decide (k' = k) then length l else 0%nat.
Proof.
  intros Hk. revert f Hk. induction l as [|x l IH]; intros f Hk.
  - by case_bool_decide.
  - unfold count_kind in *. simpl. unfold has_kind at 1. rewrite Hk.
    specialize (IH (f ∘ S) (λ i y, Hk (S i) y)).
    case_bool_decide; simpl; by rewrite IH.
Qed.

(** How many resources of each kind one run declares. *)
Lemma count_kind_graph k :
  count_kind k (graph name args this b zs)
  = let n := length zs in
    let if_nat := if not_false (enableNatGateway args) then n else 0%nat in
    let if_flow := if not_false (enableFlowLogs args) then 1%nat else 0%nat in
    match k with
    | KVpc | KInternetGateway | KDefaultSecurityGroup => 1%nat
    | KSubnet | KRouteTableAssociation => (2 * n)%nat
    | KRouteTable => (1 + n)%nat
    | KEip | KNatGateway => if_nat
    | KLogGroup | KRole | KRolePolicy | KFlowLog => if_flow
    end.
Proof.
  unfold graph, nat_part, flow_part. rewrite !count_kind_app.
  rewrite (count_kind_imap k KSubnet (public_subnet_res name args this b)) by done.
  rewrite (count_kind_imap k KSubnet (private_subnet_res name args this b)) by done.
  rewrite (count_kind_imap k KRouteTableAssociation
             (λ i _, public_rta_res name this b zs i)) by done.
  rewrite (count_kind_imap k KRouteTable (private_rt_res name args this b zs)) by done.
  rewrite (count_kind_imap k KRouteTableAssociation
             (λ i _, private_rta_res name args this b zs i)) by done.
  destruct (not_false (enableNatGateway args)), (not_false (enableFlowLogs args));
    rewrite ?count_kind_app,
      ?(count_kind_imap k KEip (λ _ az, eip_res name args this az)),
      ?(count_kind_imap k KNatGateway (nat_res name args this b zs)) by done;
    destruct k;
    unfold count_kind; cbn [List.filter];
    unfold has_kind, vpc_res, igw_res, public_rt_res, sg_res,
      log_group_res, role_res, policy_res, flow_log_res, res;
    cbn [res_props kind_of];
    repeat match goal with
           | |- context [ @bool_decide ?P ?d ] =>
               let v := eval vm_compute in (@bool_decide P d) in
               change (@bool_decide P d) with v
           end;
    cbn; lia.
Qed.

End GraphFacts.

Section RunFacts.

Variables (name : string) (args : VpcArgs) (opts : option ComponentResourceOptions)
  (zs : list string) (e : Engine).
Hypothesis Hname : name ≠ "".
Hypothesis Hv : validateArgs args = Ok tt.
Hypothesis Hz : availabilityZones args = Some zs.

Local Abbreviation b := (length (declared e)).
Local Abbreviation this := (length (components e)).
Local Abbreviation n := (length zs).

Lemma run_ok : run name args opts e = Ok (outputs args b zs).
Proof. unfold run. by rewrite (constructor_run name args opts zs e Hname Hv Hz). Qed.

Lemma final_ok : final name args opts e = after_run name args opts zs e.
Proof. unfold final. by rewrite (constructor_run name args opts zs e Hname Hv Hz). Qed.

Lemma declared_by_ok : declared_by name args opts e = graph name args this b zs.
Proof.
  unfold declared_by. rewrite final_ok. unfold after_run. cbn [declared].
  by rewrite drop_app_length.
Qed.

Lemma length_nat_part :
  length (nat_part name args this b zs) = nat_size args zs.
Proof.
  unfold nat_part, nat_size. destruct (not_false (enableNatGateway args)).
  - rewrite length_app, !length_imap. lia.
  - done.
Qed.

Lemma length_flow_part :
  length (flow_part name args this b zs)
  = if not_false (enableFlowLogs args) then 4%nat else 0%nat.
Proof. unfold flow_part. by destruct (not_false (enableFlowLogs args)). Qed.

Ltac lens :=
  rewrite ?length_app, ?length_imap, ?length_nat_part, ?length_flow_part;
  cbn [length];
  unfold at_flow_log, at_policy, at_role, at_log_group, at_sg, at_private_rta,
    at_private_rt, at_nat, at_eip, at_public_rta, at_public_rt,
    at_private, at_public, at_igw, at_vpc;
  repeat match goal with
         | H : _ !! _ = Some _ |- _ => apply lookup_lt_Some in H
         end;
  try (unfold nat_size in *;
       destruct (not_false (enableNatGateway args));
       destruct (not_false (enableFlowLogs args)); lia).

Ltac seek :=
  unfold resource_at; rewrite final_ok; unfold after_run, graph;
  cbn [declared]; rewrite !app_assoc;
  repeat (rewrite lookup_app_l by lens);
  rewrite lookup_app_r by lens.

Ltac found i :=
  seek; rewrite ?list_lookup_imap;
  match goal with
  | |- context [ ?l !! ?k ] =>
      lazymatch k with
      | context [ length (declared e) ] => replace k with i by lens
      end
  end.

Lemma resource_at_vpc :
  resource_at name args opts e (at_vpc b) = Some (vpc_res name args this).
Proof. by found 0%nat. Qed.

Lemma resource_at_igw :
  resource_at name args opts e (at_igw b) = Some (igw_res name args this b).
Proof. by found 1%nat. Qed.

Lemma resource_at_public i az :
  zs !! i = Some az →
  resource_at name args opts e (at_public b i)
  = Some (public_subnet_res name args this b i az).
Proof. intros Hi. pose proof Hi as Hi'. found i. by rewrite Hi'. Qed.

Lemma resource_at_private i az :
  zs !! i = Some az →
  resource_at name args opts e (at_private b zs i)
  = Some (private_subnet_res name args this b i az).
Proof. intros Hi. pose proof Hi as Hi'. found i. by rewrite Hi'. Qed.

Lemma resource_at_public_rt :
  resource_at name args opts e (at_public_rt b zs)
  = Some (public_rt_res name args this b).
Proof. by found 0%nat. Qed.

Lemma resource_at_public_rta i az :
  zs !! i = Some az →
  resource_at name args opts e (at_public_rta b zs i)
  = Some (public_rta_res name this b zs i).
Proof. intros Hi. pose proof Hi as Hi'. found i. by rewrite Hi'. Qed.

Lemma resource_at_private_rt i az :
  zs !! i = Some az →
  resource_at name args opts e (at_private_rt args b zs i)
  = Some (private_rt_res name args this b zs i az).
Proof. intros Hi. pose proof Hi as Hi'. found i. by rewrite Hi'. Qed.

Lemma resource_at_private_rta i az :
  zs !! i = Some az →
  resource_at name args opts e (at_private_rta args b zs i)
  = Some (private_rta_res name args this b zs i).
Proof. intros Hi. pose proof Hi as Hi'. found i. by rewrite Hi'. Qed.

Lemma resource_at_sg :
  resource_at name args opts e (at_sg args b zs) = Some (sg_res name args this b).
Proof. by found 0%nat. Qed.

Lemma resource_at_eip i az :
  not_false (enableNatGateway args) = true →
  zs !! i = Some az →
  resource_at name args opts e (at_eip b zs i) = Some (eip_res name args this az).
Proof.
  intros Hn Hi. pose proof Hi as Hi'. seek.
  unfold nat_part. rewrite Hn.
  rewrite lookup_app_l by lens. rewrite list_lookup_imap.
  replace (at_eip b zs i - _)%nat with i by lens. by rewrite Hi'.
Qed.

Lemma resource_at_nat i az :
  not_false (enableNatGateway args) = true →
  zs !! i = Some az →
  resource_at name args opts e (at_nat b zs i)
  = Some (nat_res name args this b zs i az).
Proof.
  intros Hn Hi. pose proof Hi as Hi'. seek.
  unfold nat_part. rewrite Hn.
  rewrite lookup_app_r by lens. rewrite list_lookup_imap.
  replace (at_nat b zs i - _ - _)%nat with i by lens. by rewrite Hi'.
Qed.

Lemma resource_at_flow :
  not_false (enableFlowLogs args) = true →
  resource_at name args opts e (at_log_group args b zs)
  = Some (log_group_res name args this)
  ∧ resource_at name args opts e (at_role args b zs) = Some (role_res name args this)
  ∧ resource_at name args opts e (at_policy args b zs)
    = Some (policy_res name args this b zs)
  ∧ resource_at name args opts e (at_flow_log args b zs)
    = Some (flow_log_res name args this b zs).
Proof.
  intros Hf. repeat split; seek; unfold flow_part; rewrite Hf.
  - by replace (at_log_group args b zs - _)%nat with 0%nat by lens.
  - by replace (at_role args b zs - _)%nat with 1%nat by lens.
  - by replace (at_policy args b zs - _)%nat with 2%nat by lens.
  - by replace (at_flow_log args b zs - _)%nat with 3%nat by lens.
Qed.

End RunFacts.

Section TagFacts.

Variable args : VpcArgs.

Lemma dom_tags_named nm : dom (tags_named args nm) = standard_keys.
Proof.
  unfold tags_named, obj, standard_keys. cbn [list_to_map foldr fst snd].
  rewrite !dom_insert_L, dom_empty_L. set_solver.
Qed.

Lemma dom_tags_typed nm ty : dom (tags_typed args nm ty) = standard_keys ∪ {["Type"]}.
Proof.
  unfold tags_typed, obj, standard_keys. cbn [list_to_map foldr fst snd].
  rewrite !dom_insert_L, dom_empty_L. set_solver.
Qed.

Lemma dom_tags_plain : dom (tags_plain args) ⊆ standard_keys.
Proof.
  unfold tags_plain, obj, standard_keys. cbn [list_to_map foldr fst snd].
  rewrite !dom_insert_L, dom_empty_L. intros k.
  rewrite !elem_of_union, !elem_of_singleton, elem_of_empty. tauto.
Qed.

Lemma Type_not_standard : "Type" ∉ standard_keys.
Proof.
  unfold standard_keys. rewrite !elem_of_union, !elem_of_singleton.
  intros [[[H | H] | H] | H]; discriminate.
Qed.

Lemma tags_bounded_standard r : tag_keys r ⊆ standard_keys → tags_bounded r.
Proof.
  intros Hsub _. split; [intros k Hk; apply elem_of_union_l; by apply Hsub |].
  intros Hty. apply Hsub in Hty. by apply Type_not_standard in Hty.
Qed.

Lemma tags_bounded_typed r :
  tag_keys r = standard_keys ∪ {["Type"]} →
  kind_of (res_props r) = KSubnet ∨ kind_of (res_props r) = KRouteTable →
  tags_bounded r.
Proof. intros Heq Hkind _. rewrite Heq. by split. Qed.

End TagFacts.

(** ** The claims of the specification

    A component is constructed under a logical name.  The base class
    refuses an empty name before the constructor's own code runs (see C7),
    so the claims about what a run declares are stated for a name that is
    not empty. *)

(** C1. For every valid configuration, constructed under a name that is
    not empty, the outputs hold one public and one private subnet id per
    availability zone, in the order of the input
    zones: the id at index [i] of each list belongs to the subnet declared
    for zone [i], with that zone's CIDR block. *)
Theorem subnet_ids_follow_zones (name : string) (args : VpcArgs)
    (opts : option ComponentResourceOptions) (zs : list string) (e : Engine) :
  name ≠ "" →
  validateArgs args = Ok tt →
  availabilityZones args = Some zs →
  ∃ out,
    run name args opts e = Ok out
    ∧ length (publicSubnetIds out) = length zs
    ∧ length (privateSubnetIds out) = length zs
    ∧ count_kind KSubnet (declared_by name args opts e) = (2 * length zs)%nat
    ∧ ∀ i az, zs !! i = Some az →
        ∃ p q pub priv,
          publicSubnetIds out !! i = Some (id_of p)
          ∧ resource_at name args opts e p = Some pub
          ∧ res_name pub = name +:+ "-public-" +:+ az
          ∧ res_props pub
            = SubnetProps (vpcId out) (default [] (publicSubnetCidrs args) !! i) az true
          ∧ privateSubnetIds out !! i = Some (id_of q)
          ∧ resource_at name args opts e q = Some priv
          ∧ res_name priv = name +:+ "-private-" +:+ az
          ∧ res_props priv
            = SubnetProps (vpcId out) (default [] (privateSubnetCidrs args) !! i) az false.
Proof.
  intros Hname Hv Hz. exists (outputs args (length (declared e)) zs).
  split; [by apply run_ok |].
  cbn [outputs publicSubnetIds privateSubnetIds vpcId]. rewrite !length_imap.
  do 2 (split; [done |]).
  split.
  { by rewrite (declared_by_ok name args opts zs e Hname Hv Hz), count_kind_graph. }
  intros i az Hi.
  exists (at_public (length (declared e)) i), (at_private (length (declared e)) zs i).
  eexists _, _. rewrite !list_lookup_imap, Hi.
  rewrite (resource_at_public name args opts zs e Hname Hv Hz i az Hi).
  rewrite (resource_at_private name args opts zs e Hname Hv Hz i az Hi).
  repeat split.
Qed.

Lemma subnet_ids_follow_zones_witness :
  "example-vpc" ≠ ""
  ∧ validateArgs basic_args = Ok tt
  ∧ availabilityZones basic_args = Some ["us-east-1a"; "us-east-1b"]
  ∧ ∃ out,
      run "example-vpc" basic_args None fresh = Ok out
      ∧ length (publicSubnetIds out) = 2%nat
      ∧ length (privateSubnetIds out) = 2%nat.
Proof.
  assert ("example-vpc" ≠ "") as Hne by discriminate.
  assert (validateArgs basic_args = Ok tt) as Hv by (vm_compute; reflexivity).
  split; [exact Hne |]. split; [exact Hv |]. split; [reflexivity |].
  destruct (subnet_ids_follow_zones "example-vpc" basic_args None
              ["us-east-1a"; "us-east-1b"] fresh Hne Hv eq_refl)
    as (out & Hrun & Hpub & Hpriv & _).
  exists out. auto.
Defined.

(** C2. For every valid configuration with NAT enabled, constructed under
    a name that is not empty, one elastic address and one NAT gateway are
    declared per zone; the NAT gateway of
    zone [i] is bound to the elastic address of zone [i] and to the public
    subnet of zone [i]; [natGatewayIds] has one entry per zone; and the
    private route table of zone [i] has the single route 0.0.0.0/0 through
    the NAT gateway of zone [i]. *)
Theorem nat_gateways_per_zone (name : string) (args : VpcArgs)
    (opts : option ComponentResourceOptions) (zs : list string) (e : Engine) :
  name ≠ "" →
  validateArgs args = Ok tt →
  availabilityZones args = Some zs →
  nat_enabled args →
  ∃ out first_eip,
    run name args opts e = Ok out
    ∧ length (natGatewayIds out) = length zs
    ∧ count_kind KEip (declared_by name args opts e) = length zs
    ∧ count_kind KNatGateway (declared_by name args opts e) = length zs
    ∧ ∀ i az, zs !! i = Some az →
        ∃ g s t eip ngw rtb,
          resource_at name args opts e (first_eip + i) = Some eip
          ∧ res_name eip = name +:+ "-nat-eip-" +:+ az
          ∧ res_props eip = EipProps "vpc"
          ∧ natGatewayIds out !! i = Some (id_of g)
          ∧ publicSubnetIds out !! i = Some (id_of s)
          ∧ resource_at name args opts e g = Some ngw
          ∧ res_name ngw = name +:+ "-nat-" +:+ az
          ∧ res_props ngw = NatGatewayProps (id_of (first_eip + i)) (id_of s)
          ∧ privateRouteTableIds out !! i = Some (id_of t)
          ∧ resource_at name args opts e t = Some rtb
          ∧ res_name rtb = name +:+ "-private-rt-" +:+ az
          ∧ res_props rtb = RouteTableProps (vpcId out) (Some [nat_route (id_of g)]).
Proof.
  intros Hname Hv Hz Hnat.
  assert (not_false (enableNatGateway args) = true) as Hn.
  { unfold nat_enabled in Hnat. by destruct (enableNatGateway args) as [[]|]. }
  exists (outputs args (length (declared e)) zs), (at_eip (length (declared e)) zs 0).
  split; [by apply run_ok |].
  rewrite (declared_by_ok name args opts zs e Hname Hv Hz), !count_kind_graph.
  cbn [outputs natGatewayIds publicSubnetIds privateRouteTableIds vpcId].
  rewrite Hn, length_imap. do 3 (split; [done |]).
  intros i az Hi.
  exists (at_nat (length (declared e)) zs i), (at_public (length (declared e)) i), (at_private_rt args (length (declared e)) zs i).
  eexists _, _, _. rewrite !list_lookup_imap, Hi.
  replace (at_eip (length (declared e)) zs 0 + i)%nat with (at_eip (length (declared e)) zs i) by (unfold at_eip; lia).
  rewrite (resource_at_eip name args opts zs e Hname Hv Hz i az Hn Hi).
  rewrite (resource_at_nat name args opts zs e Hname Hv Hz i az Hn Hi).
  rewrite (resource_at_private_rt name args opts zs e Hname Hv Hz i az Hi).
  unfold private_rt_res, res. cbn [res_props res_name]. rewrite Hn.
  repeat split.
Qed.

Lemma nat_gateways_per_zone_witness :
  "example-vpc" ≠ ""
  ∧ validateArgs basic_args = Ok tt
  ∧ availabilityZones basic_args = Some ["us-east-1a"; "us-east-1b"]
  ∧ nat_enabled basic_args
  ∧ ∃ out,
      run "example-vpc" basic_args None fresh = Ok out
      ∧ length (natGatewayIds out) = 2%nat
      ∧ count_kind KNatGateway (declared_by "example-vpc" basic_args None fresh) = 2%nat.
Proof.
  assert ("example-vpc" ≠ "") as Hne by discriminate.
  assert (validateArgs basic_args = Ok tt) as Hv by (vm_compute; reflexivity).
  assert (nat_enabled basic_args) as Hn by (unfold nat_enabled; simpl; congruence).
  split; [exact Hne |]. split; [exact Hv |]. split; [reflexivity |]. split; [exact Hn |].
  destruct (nat_gateways_per_zone "example-vpc" basic_args None
              ["us-east-1a"; "us-east-1b"] fresh Hne Hv eq_refl Hn)
    as (out & a & Hrun & Hlen & _ & Hcount & _).
  exists out. auto.
Defined.

(** C3. For every valid configuration with NAT set to [false],
    constructed under a name that is not empty, [natGatewayIds] is empty, no NAT gateway or elastic address is declared,
    and every declared private route table has no routes at all, hence no
    default route. *)
Theorem nat_disabled_no_default_route (name : string) (args : VpcArgs)
    (opts : option ComponentResourceOptions) (zs : list string) (e : Engine) :
  name ≠ "" →
  validateArgs args = Ok tt →
  availabilityZones args = Some zs →
  enableNatGateway args = Some false →
  ∃ out,
    run name args opts e = Ok out
    ∧ natGatewayIds out = []
    ∧ count_kind KNatGateway (declared_by name args opts e) = 0%nat
    ∧ count_kind KEip (declared_by name args opts e) = 0%nat
    ∧ length (privateRouteTableIds out) = length zs
    ∧ (∀ i az, zs !! i = Some az →
         ∃ t rtb,
           privateRouteTableIds out !! i = Some (id_of t)
           ∧ resource_at name args opts e t = Some rtb
           ∧ res_name rtb = name +:+ "-private-rt-" +:+ az
           ∧ res_props rtb = RouteTableProps (vpcId out) None)
    ∧ Forall (λ r, ∀ v routes,
                res_props r = RouteTableProps v routes →
                tag "Type" r = Some (Some "private") →
                routes = None)
        (declared_by name args opts e).
Proof.
  intros Hname Hv Hz Hnat.
  assert (not_false (enableNatGateway args) = false) as Hn by (by rewrite Hnat).
  exists (outputs args (length (declared e)) zs).
  split; [by apply run_ok |].
  rewrite (declared_by_ok name args opts zs e Hname Hv Hz), !count_kind_graph.
  cbn [outputs natGatewayIds privateRouteTableIds vpcId].
  rewrite Hn, length_imap. do 4 (split; [done |]).
  split.
  - intros i az Hi. exists (at_private_rt args (length (declared e)) zs i). eexists.
    rewrite !list_lookup_imap, Hi.
    rewrite (resource_at_private_rt name args opts zs e Hname Hv Hz i az Hi).
    unfold private_rt_res, res. cbn [res_props res_name]. rewrite Hn.
    repeat split.
  - apply graph_Forall; try (intros; discriminate);
      try (intros; split; intros; discriminate).
    + intros i az Hi v routes Hprops _.
      unfold private_rt_res, res in Hprops. cbn [res_props] in Hprops.
      rewrite Hn in Hprops. by injection Hprops as _ <-.
    + intros _. repeat split; intros; discriminate.
Qed.

Lemma nat_disabled_no_default_route_witness :
  "example-vpc" ≠ ""
  ∧ validateArgs no_nat_args = Ok tt
  ∧ availabilityZones no_nat_args = Some two_zones
  ∧ enableNatGateway no_nat_args = Some false
  ∧ ∃ out,
      run "example-vpc" no_nat_args None fresh = Ok out
      ∧ natGatewayIds out = []
      ∧ length (privateRouteTableIds out) = 2%nat.
Proof.
  assert ("example-vpc" ≠ "") as Hne by discriminate.
  assert (validateArgs no_nat_args = Ok tt) as Hv by (vm_compute; reflexivity).
  split; [exact Hne |]. split; [exact Hv |]. split; [reflexivity |]. split; [reflexivity |].
  destruct (nat_disabled_no_default_route "example-vpc" no_nat_args None two_zones
              fresh Hne Hv eq_refl eq_refl)
    as (out & Hrun & Hids & _ & _ & Hlen & _).
  exists out. auto.
Defined.

(** C4. For every valid configuration, constructed under a name that is
    not empty: when flow logging is enabled the log sink, the trust role, the role policy and the flow log are all
    declared, once each, wired to one another, and [flowLogId] is the id of
    the flow log; when the flag is [false] none of the four is declared, the
    constructor still returns, and [flowLogId] is the explicit absent
    value. *)
Theorem flow_logging_all_or_nothing (name : string) (args : VpcArgs)
    (opts : option ComponentResourceOptions) (zs : list string) (e : Engine) :
  name ≠ "" →
  validateArgs args = Ok tt →
  availabilityZones args = Some zs →
  ∃ out,
    run name args opts e = Ok out
    ∧ if not_false (enableFlowLogs args) then
        count_kind KLogGroup (declared_by name args opts e) = 1%nat
        ∧ count_kind KRole (declared_by name args opts e) = 1%nat
        ∧ count_kind KRolePolicy (declared_by name args opts e) = 1%nat
        ∧ count_kind KFlowLog (declared_by name args opts e) = 1%nat
        ∧ ∃ sink role policy flow r_sink r_role r_policy r_flow,
            flowLogId out = id_of flow
            ∧ resource_at name args opts e sink = Some r_sink
            ∧ res_props r_sink
              = LogGroupProps ("/aws/vpc/flow-logs/" +:+ name)
                  (num_or (flowLogRetentionDays args) (Num 7))
            ∧ resource_at name args opts e role = Some r_role
            ∧ res_props r_role
              = RoleProps (assumeRolePolicyForService "vpc-flow-logs.amazonaws.com")
            ∧ resource_at name args opts e policy = Some r_policy
            ∧ res_props r_policy
              = RolePolicyProps (id_of role) (flow_log_policy (arn_of sink))
            ∧ resource_at name args opts e flow = Some r_flow
            ∧ res_props r_flow
              = FlowLogProps (vpcId out) "ALL" (arn_of sink) (arn_of role)
      else
        flowLogId out = OutUndefined
        ∧ count_kind KLogGroup (declared_by name args opts e) = 0%nat
        ∧ count_kind KRole (declared_by name args opts e) = 0%nat
        ∧ count_kind KRolePolicy (declared_by name args opts e) = 0%nat
        ∧ count_kind KFlowLog (declared_by name args opts e) = 0%nat.
Proof.
  intros Hname Hv Hz.
  exists (outputs args (length (declared e)) zs).
  split; [by apply run_ok |].
  rewrite (declared_by_ok name args opts zs e Hname Hv Hz), !count_kind_graph.
  cbn [outputs flowLogId vpcId].
  destruct (not_false (enableFlowLogs args)) eqn:Hf; [| done].
  do 4 (split; [done |]).
  destruct (resource_at_flow name args opts zs e Hname Hv Hz Hf)
    as (Hsink & Hrole & Hpol & Hflow).
  exists (at_log_group args (length (declared e)) zs),
    (at_role args (length (declared e)) zs),
    (at_policy args (length (declared e)) zs),
    (at_flow_log args (length (declared e)) zs).
  eexists _, _, _, _. rewrite Hsink, Hrole, Hpol, Hflow. repeat split.
Qed.

Lemma flow_logging_all_or_nothing_witness :
  "example-vpc" ≠ ""
  ∧ validateArgs no_flow_args = Ok tt
  ∧ availabilityZones no_flow_args = Some two_zones
  ∧ ∃ out,
      run "example-vpc" no_flow_args None fresh = Ok out
      ∧ flowLogId out = OutUndefined
      ∧ count_kind KFlowLog (declared_by "example-vpc" no_flow_args None fresh) = 0%nat.
Proof.
  assert ("example-vpc" ≠ "") as Hne by discriminate.
  assert (validateArgs no_flow_args = Ok tt) as Hv by (vm_compute; reflexivity).
  split; [exact Hne |]. split; [exact Hv |]. split; [reflexivity |].
  destruct (flow_logging_all_or_nothing "example-vpc" no_flow_args None two_zones
              fresh Hne Hv eq_refl)
    as (out & Hrun & Hrest).
  change (not_false (enableFlowLogs no_flow_args)) with false in Hrest.
  destruct Hrest as (Hid & _ & _ & _ & Hcount).
  exists out. auto.
Defined.

(** C10. For a valid configuration with flow logging enabled, constructed
    under a name that is not empty, a retention that is zero, [NaN] or left
    out is replaced by 7 days in the declared log sink. *)
Theorem falsy_retention_defaults_to_seven (name : string) (args : VpcArgs)
    (opts : option ComponentResourceOptions) (zs : list string) (e : Engine) :
  name ≠ "" →
  validateArgs args = Ok tt →
  availabilityZones args = Some zs →
  flow_logs_enabled args →
  retention_falsy (flowLogRetentionDays args) →
  count_kind KLogGroup (declared_by name args opts e) = 1%nat
  ∧ Forall (λ r, ∀ nm days, res_props r = LogGroupProps nm days → days = Num 7)
      (declared_by name args opts e)
  ∧ ∃ sink r,
      resource_at name args opts e sink = Some r
      ∧ res_props r = LogGroupProps ("/aws/vpc/flow-logs/" +:+ name) (Num 7).
Proof.
  intros Hname Hv Hz Hflow Hret.
  assert (not_false (enableFlowLogs args) = true) as Hf.
  { unfold flow_logs_enabled in Hflow. by destruct (enableFlowLogs args) as [[]|]. }
  assert (num_or (flowLogRetentionDays args) (Num 7) = Num 7) as Hdays.
  { by destruct Hret as [-> | [-> | ->]]. }
  rewrite (declared_by_ok name args opts zs e Hname Hv Hz), count_kind_graph, Hf.
  split; [done |]. split.
  - apply graph_Forall; try (intros; discriminate);
      try (intros; split; intros; discriminate).
    intros _. repeat split; try (intros; discriminate).
    intros nm days Hprops. unfold log_group_res, res in Hprops.
    cbn [res_props] in Hprops. rewrite Hdays in Hprops. by injection Hprops as _ <-.
  - destruct (resource_at_flow name args opts zs e Hname Hv Hz Hf) as (Hsink & _).
    exists (at_log_group args (length (declared e)) zs). eexists.
    rewrite Hsink. unfold log_group_res, res. cbn [res_props]. by rewrite Hdays.
Qed.

Lemma falsy_retention_defaults_to_seven_witness :
  "example-vpc" ≠ ""
  ∧ validateArgs zero_retention_args = Ok tt
  ∧ availabilityZones zero_retention_args = Some two_zones
  ∧ flow_logs_enabled zero_retention_args
  ∧ retention_falsy (flowLogRetentionDays zero_retention_args)
  ∧ ∃ sink r,
      resource_at "example-vpc" zero_retention_args None fresh sink = Some r
      ∧ res_props r = LogGroupProps "/aws/vpc/flow-logs/example-vpc" (Num 7).
Proof.
  assert ("example-vpc" ≠ "") as Hne by discriminate.
  assert (validateArgs zero_retention_args = Ok tt) as Hv by (vm_compute; reflexivity).
  assert (flow_logs_enabled zero_retention_args) as Hf
    by (unfold flow_logs_enabled; simpl; congruence).
  assert (retention_falsy (flowLogRetentionDays zero_retention_args)) as Hr
    by (right; left; reflexivity).
  split; [exact Hne |]. split; [exact Hv |]. split; [reflexivity |].
  split; [exact Hf |]. split; [exact Hr |].
  apply (falsy_retention_defaults_to_seven "example-vpc" zero_retention_args None
           two_zones fresh Hne Hv eq_refl Hf Hr).
Defined.

(** C5. The validator is total and fail-fast: on every raw configuration
    it returns, or raises exactly one error, the first violated constraint
    of [checks] in their fixed order (address block; zone list; public CIDR
    list; private CIDR list; environment; project; CIDR syntax of the
    network block, of each public block and of each private block).  The
    message of each presence and length constraint names its field, and the
    message of a CIDR constraint starts with the label of the block it is
    about. *)
Theorem validateArgs_raises_first_violation :
  (∀ args : VpcArgs,
     validateArgs args
     = match first_violation (checks args) with
       | Some m => Throw (Error m)
       | None => Ok tt
       end)
  ∧ (∀ label cidr : string,
       cidr_violation label cidr
       ∈ [ None;
           Some (label +:+ " must be a valid CIDR block (e.g., 10.0.0.0/16)");
           Some (label +:+ " prefix must be between 8 and 30");
           Some (label +:+ " contains invalid IP address") ]).
Proof.
  split; [apply validateArgs_checks |].
  intros label cidr. unfold cidr_violation.
  destruct (validateCidrBlock_outcome cidr label) as [H | [H | [H | H]]];
    rewrite H; apply list_elem_of_In; simpl; auto.
Qed.

(** C6. The CIDR validator accepts exactly the strings made of four
    dot-separated octets (one to three decimal digits, value 0 to 255),
    a slash, and a prefix length (one or two decimal digits, value 8 to
    30).  It rejects 10.0.0.0, 10.0.0.0/31, 10.0.0.0/7, 999.0.0.0/16 and
    10.0.0.0/16x, and accepts 10.0.0.0/16 and 172.16.0.0/12. *)
Theorem validateCidrBlock_accepts_cidr_syntax :
  (∀ cidr name : string, validateCidrBlock cidr name = Ok tt ↔ cidr_syntax cidr)
  ∧ (∀ name : string,
       validateCidrBlock "10.0.0.0" name ≠ Ok tt
       ∧ validateCidrBlock "10.0.0.0/31" name ≠ Ok tt
       ∧ validateCidrBlock "10.0.0.0/7" name ≠ Ok tt
       ∧ validateCidrBlock "999.0.0.0/16" name ≠ Ok tt
       ∧ validateCidrBlock "10.0.0.0/16x" name ≠ Ok tt
       ∧ validateCidrBlock "10.0.0.0/16" name = Ok tt
       ∧ validateCidrBlock "172.16.0.0/12" name = Ok tt).
Proof.
  split; [apply validateCidrBlock_iff |].
  intros name. repeat split; vm_compute; congruence.
Qed.

(** C7. When a configuration violates a validation rule, the constructor
    raises the validation error (the first violation) with nothing
    declared: the registry holds the same resources and the same registered
    outputs as before the call; only the component's own registration by
    the base class has happened.  The one call on which another error comes
    first is a call without a name: the base class refuses it before the
    validator is reached, and then nothing at all is registered. *)
Theorem validation_error_precedes_declarations (name : string) (args : VpcArgs)
    (opts : option ComponentResourceOptions) (e : Engine) (m : string) :
  Some m ∈ checks args →
  ∃ m',
    first_violation (checks args) = Some m'
    ∧ run name args opts e
      = Throw (if bool_decide (name = "") then ResourceError else Error m')
    ∧ declared_by name args opts e = []
    ∧ declared (final name args opts e) = declared e
    ∧ registered (final name args opts e) = registered e
    ∧ components (final name args opts e)
      = if bool_decide (name = "") then components e
        else components e ++ [vpc_component name opts].
Proof.
  intros Hin.
  assert (∃ m', first_violation (checks args) = Some m') as [m' Hm'].
  { induction (checks args) as [|[x|] l IH]; simpl.
    - by apply elem_of_nil in Hin.
    - by exists x.
    - apply IH. by apply elem_of_cons in Hin as [? | ?]. }
  exists m'. split; [done |].
  assert (validateArgs args = Throw (Error m')) as Hv
    by (by rewrite validateArgs_checks, Hm').
  unfold run, declared_by, final.
  case_bool_decide as Hname.
  - subst name. rewrite constructor_unnamed. cbn [fst snd].
    by rewrite drop_all.
  - rewrite (constructor_refused name args opts e _ Hname Hv).
    cbn [fst snd declared registered components].
    by rewrite drop_all.
Qed.

Lemma validation_error_precedes_declarations_witness :
  Some "publicSubnetCidrs must be provided and match the number of availability zones"
    ∈ checks mismatch_args
  ∧ run "example-vpc" mismatch_args None fresh
    = Throw (Error "publicSubnetCidrs must be provided and match the number of availability zones")
  ∧ declared_by "example-vpc" mismatch_args None fresh = []
  ∧ components (final "example-vpc" mismatch_args None fresh)
    = [vpc_component "example-vpc" None].
Proof.
  assert (Some "publicSubnetCidrs must be provided and match the number of availability zones"
            ∈ checks mismatch_args) as Hin.
  { apply list_elem_of_lookup. by exists 2%nat. }
  split; [exact Hin |].
  destruct (validation_error_precedes_declarations "example-vpc" mismatch_args None
              fresh _ Hin) as (m' & Hfirst & Hrun & Hnone & _ & _ & Hcomp).
  vm_compute in Hfirst. injection Hfirst as <-.
  exact (conj Hrun (conj Hnone Hcomp)).
Defined.

(** C8. Two passes over the same configuration declare the same graph.
    Run on any two registries, the constructor either raises the same error
    twice with nothing declared, or returns twice with resource lists that
    agree in length, order, names, properties, tags and wiring, and differ
    only by the renumbering of positions from one registry to the other;
    the outputs are renumbered the same way, and every kind of resource is
    declared equally often.  On two equal registries the renumbering is the
    identity. *)
Theorem two_passes_same_graph (name : string) (args : VpcArgs)
    (opts : option ComponentResourceOptions) (e1 e2 : Engine) :
  let b1 := length (declared e1) in
  let b2 := length (declared e2) in
  let t1 := length (components e1) in
  let t2 := length (components e2) in
  match run name args opts e1, run name args opts e2 with
  | Ok o1, Ok o2 =>
      o2 = move_outputs b1 b2 o1
      ∧ declared_by name args opts e2
        = move_resource b1 b2 t1 t2 <$> declared_by name args opts e1
  | Throw x1, Throw x2 =>
      x1 = x2 ∧ declared_by name args opts e1 = [] ∧ declared_by name args opts e2 = []
  | _, _ => False
  end
  ∧ length (declared_by name args opts e1) = length (declared_by name args opts e2)
  ∧ (∀ k, count_kind k (declared_by name args opts e1)
          = count_kind k (declared_by name args opts e2))
  ∧ move_resource b1 b1 t1 t1 <$> declared_by name args opts e1
    = declared_by name args opts e1.
Proof.
  intros b1 b2 t1 t2.
  destruct (decide (name = "")) as [-> | Hname].
  { unfold run, declared_by, final. rewrite !constructor_unnamed.
    cbn [fst snd]. by rewrite !drop_all. }
  destruct (validateArgs args) as [[]|x] eqn:Hv.
  - destruct (valid_shape args Hv) as (zs & ps & qs & Hz & _).
    rewrite !(run_ok name args opts zs _ Hname Hv Hz),
      !(declared_by_ok name args opts zs _ Hname Hv Hz).
    fold b1 b2 t1 t2.
    assert (∀ b b' t t',
              graph name args t' b' zs
              = move_resource b b' t t' <$> graph name args t b zs) as Hmove.
    { intros b b' t t'. unfold graph, nat_part, flow_part.
      destruct (not_false (enableNatGateway args)) eqn:Hn,
        (not_false (enableFlowLogs args)) eqn:Hf;
        rewrite !fmap_app, !fmap_imap; cbn [fmap list_fmap];
        unfold flow_log_res, policy_res, role_res, log_group_res, sg_res,
          private_rta_res, private_rt_res, nat_res, eip_res, public_rta_res,
          public_rt_res, private_subnet_res, public_subnet_res, igw_res, vpc_res,
          res, move_resource, compose;
        cbn [res_name res_props res_tags res_parent move_props move_output id_of
             arn_of move_policy move_statement policy_Version policy_Statement
             stmt_Effect stmt_Action stmt_Resource fmap list_fmap option_fmap
             option_map map move_route route_cidrBlock route_gatewayId
             route_natGatewayId];
        rewrite ?Hn;
        unfold move_policy, move_route;
        cbn [fmap list_fmap option_fmap option_map map route_cidrBlock
             route_gatewayId route_natGatewayId policy_Version policy_Statement];
        unfold move_statement, move_output;
        cbn [stmt_Effect stmt_Action stmt_Resource];
        unfold at_flow_log, at_policy, at_role, at_log_group, at_sg, at_private_rta,
          at_private_rt, nat_size, at_nat, at_eip, at_public_rta, at_public_rt,
          at_private, at_public, at_igw, at_vpc, id_of, arn_of, move;
        rewrite ?Hn;
        repeat match goal with
               | |- @eq nat _ _ => lia
               | |- imap _ _ = imap _ _ => apply imap_ext; intros ? ? _; cbv beta
               | |- _ => progress f_equal
               end. }
    split; [split |].
    + unfold outputs, move_outputs.
      cbn [vpcId vpcCidr publicSubnetIds privateSubnetIds publicRouteTableId
           privateRouteTableIds natGatewayIds internetGatewayId flowLogId].
      destruct (not_false (enableNatGateway args)) eqn:Hn,
        (not_false (enableFlowLogs args)) eqn:Hf;
        rewrite ?fmap_imap; cbn [fmap list_fmap];
        unfold at_flow_log, at_policy, at_role, at_log_group, at_sg, at_private_rta,
          at_private_rt, nat_size, at_nat, at_eip, at_public_rta, at_public_rt,
          at_private, at_public, at_igw, at_vpc, id_of, arn_of, move_output, move,
          compose;
        rewrite ?Hn;
        repeat match goal with
               | |- @eq nat _ _ => lia
               | |- imap _ _ = imap _ _ => apply imap_ext; intros ? ? _; cbv beta
               | |- _ => progress f_equal
               end.
    + apply Hmove.
    + split; [by rewrite (Hmove b1 b2 t1 t2), length_fmap |].
      split; [intros k; by rewrite !count_kind_graph |].
      by rewrite <- Hmove.
  - unfold run, declared_by, final.
    rewrite !(constructor_refused name args opts _ _ Hname Hv). cbn.
    rewrite !drop_all. done.
Qed.

(** The scenario of the specification: two zones, NAT and flow logging on. *)
Example two_zone_scenario :
  let g := declared_by "example-vpc" basic_args None fresh in
  count_kind KSubnet g = 4%nat
  ∧ count_kind KRouteTable g = 3%nat
  ∧ count_kind KNatGateway g = 2%nat
  ∧ count_kind KFlowLog g = 1%nat
  ∧ length g = 22%nat.
Proof. vm_compute. repeat split. Qed.

(** C9, as the specification states it, fails: a public subnet of the
    basic example carries the tag [Type], which is not one of [Name],
    [Environment], [Project], [ManagedBy]. *)
Lemma only_standard_tags_counterexample :
  ¬ (∀ r, r ∈ declared_by "example-vpc" basic_args None fresh →
          kind_of (res_props r) ≠ KVpc →
          tag_keys r ⊆ standard_keys).
Proof.
  intros H.
  assert (validateArgs basic_args = Ok tt) as Hv by (vm_compute; reflexivity).
  pose (r := public_subnet_res "example-vpc" basic_args 0 0 0 "us-east-1a").
  assert ("example-vpc" ≠ "") as Hne by discriminate.
  assert (r ∈ declared_by "example-vpc" basic_args None fresh) as Hin.
  { rewrite (declared_by_ok "example-vpc" basic_args None two_zones fresh Hne Hv eq_refl).
    apply list_elem_of_lookup. exists 2%nat. reflexivity. }
  assert (kind_of (res_props r) ≠ KVpc) as Hk by (intros [=]).
  specialize (H r Hin Hk).
  assert ("Type" ∈ tag_keys r) as Hty.
  { unfold tag_keys, r, public_subnet_res, res. cbn [res_tags].
    rewrite dom_tags_typed. apply elem_of_union_r. by apply elem_of_singleton. }
  apply H in Hty. by apply Type_not_standard in Hty.
Qed.

(** C9, amended, for a valid configuration constructed under a name that
    is not empty.  The caller's extra tags reach the network resource only:
    its tags are the caller's, completed by the standard [Name],
    [Environment], [Project] and [ManagedBy], the caller's value winning on
    a shared key.  Every other declared resource carries tags only under
    the four standard keys and, on subnets and route tables, [Type]; and
    none of them changes when the caller's tags change. *)
Theorem extra_tags_only_on_vpc (name : string) (args : VpcArgs)
    (opts : option ComponentResourceOptions) (zs : list string) (e : Engine) :
  name ≠ "" →
  validateArgs args = Ok tt →
  availabilityZones args = Some zs →
  ∃ out v vpc t,
    run name args opts e = Ok out
    ∧ vpcId out = id_of v
    ∧ resource_at name args opts e v = Some vpc
    ∧ declared_by name args opts e !! 0%nat = Some vpc
    ∧ count_kind KVpc (declared_by name args opts e) = 1%nat
    ∧ res_tags vpc = Some t
    ∧ (∀ k, t !! k
            = match default ∅ (tags args) !! k with
              | Some x => Some (Some x)
              | None => tags_named args (name +:+ "-vpc") !! k
              end)
    ∧ dom (tags_named args (name +:+ "-vpc")) = standard_keys
    ∧ Forall (λ r, kind_of (res_props r) ≠ KVpc →
                   tag_keys r ⊆ standard_keys ∪ {["Type"]}
                   ∧ ("Type" ∈ tag_keys r →
                      kind_of (res_props r) = KSubnet
                      ∨ kind_of (res_props r) = KRouteTable))
        (declared_by name args opts e)
    ∧ ∀ t', drop 1 (declared_by name (with_tags t' args) opts e)
            = drop 1 (declared_by name args opts e).
Proof.
  intros Hname Hv Hz.
  exists (outputs args (length (declared e)) zs), (at_vpc (length (declared e))).
  exists (vpc_res name args (length (components e))).
  exists (spread (tags_named args (name +:+ "-vpc")) (tags args)).
  split; [exact (run_ok name args opts zs e Hname Hv Hz) |]. split; [reflexivity |].
  split; [exact (resource_at_vpc name args opts zs e Hname Hv Hz) |].
  rewrite (declared_by_ok name args opts zs e Hname Hv Hz).
  split; [reflexivity |]. split; [by rewrite count_kind_graph |].
  split; [reflexivity |]. split; [| split; [| split]].
  - intros k. unfold spread. rewrite lookup_union, lookup_fmap.
    destruct (default ∅ (tags args) !! k); simpl;
      by destruct (tags_named args (name +:+ "-vpc") !! k).
  - apply dom_tags_named.
  - apply (graph_Forall name args _ _ zs tags_bounded);
      unfold flow_log_res, policy_res, role_res, log_group_res, sg_res,
        private_rta_res, private_rt_res, nat_res, eip_res, public_rta_res,
        public_rt_res, private_subnet_res, public_subnet_res, igw_res, vpc_res, res.
    + by intros [].
    + apply tags_bounded_standard. unfold tag_keys. cbn [res_tags].
      by rewrite dom_tags_named.
    + intros i az _. apply tags_bounded_typed; [apply dom_tags_typed | by left].
    + intros i az _. apply tags_bounded_typed; [apply dom_tags_typed | by left].
    + apply tags_bounded_typed; [apply dom_tags_typed | by right].
    + intros i az _. apply tags_bounded_standard. apply empty_subseteq.
    + intros _ i az _. split; apply tags_bounded_standard; unfold tag_keys;
        cbn [res_tags]; by rewrite dom_tags_named.
    + intros i az _. apply tags_bounded_typed; [apply dom_tags_typed | by right].
    + intros i az _. apply tags_bounded_standard. apply empty_subseteq.
    + apply tags_bounded_standard. unfold tag_keys. cbn [res_tags].
      by rewrite dom_tags_named.
    + intros _. split; [| split; [| split]];
        apply tags_bounded_standard; unfold tag_keys; cbn [res_tags].
      * apply dom_tags_plain.
      * apply dom_tags_plain.
      * apply empty_subseteq.
      * by rewrite dom_tags_named.
  - intros t'.
    assert (validateArgs (with_tags t' args) = Ok tt) as Hv' by exact Hv.
    rewrite (declared_by_ok name (with_tags t' args) opts zs e Hname Hv' Hz).
    reflexivity.
Qed.

Lemma extra_tags_only_on_vpc_witness :
  "example-vpc" ≠ ""
  ∧ validateArgs basic_args = Ok tt
  ∧ availabilityZones basic_args = Some two_zones
  ∧ ∀ t', drop 1 (declared_by "example-vpc" (with_tags t' basic_args) None fresh)
          = drop 1 (declared_by "example-vpc" basic_args None fresh).
Proof.
  assert ("example-vpc" ≠ "") as Hne by discriminate.
  assert (validateArgs basic_args = Ok tt) as Hv by (vm_compute; reflexivity).
  split; [exact Hne |]. split; [exact Hv |]. split; [reflexivity |].
  destruct (extra_tags_only_on_vpc "example-vpc" basic_args None two_zones fresh
              Hne Hv eq_refl)
    as (out & v & vpc & t & _ & _ & _ & _ & _ & _ & _ & _ & _ & Hsame).
  exact Hsame.
Defined.

(** ** Further properties of the validator *)

Section MoreValidatorFacts.

Lemma first_violation_None l : first_violation l = None ↔ Forall (λ v, v = None) l.
Proof.
  induction l as [|[m|] l IH]; simpl.
  - split; [constructor | done].
  - split; [done | by inversion 1].
  - rewrite IH. split; [by constructor | by inversion 1].
Qed.

Lemma violated_None c msg : violated c msg = None ↔ c = false.
Proof. by destruct c. Qed.

Lemma cidr_violation_None label cidr :
  cidr_violation label cidr = None ↔ cidr_syntax cidr.
Proof.
  rewrite <- (validateCidrBlock_iff cidr label), validateCidrBlock_violation.
  by destruct (cidr_violation label cidr).
Qed.

Lemma Forall_imap_violations (label : nat → string) (l : list string) :
  Forall (λ v, v = None) (imap (λ i c, cidr_violation (label i) c) l)
  ↔ Forall cidr_syntax l.
Proof.
  revert label. induction l as [|c l IH]; intros label; simpl.
  - split; constructor.
  - rewrite !Forall_cons, cidr_violation_None.
    by rewrite (IH (label ∘ S)).
Qed.

Lemma cidr_syntax_not_empty c : cidr_syntax c → c ≠ EmptyString.
Proof.
  intros (a & b & c' & d & p & -> & (_ & La & _) & _) Hc.
  apply (f_equal String.length) in Hc. rewrite length_append in Hc.
  simpl in Hc. lia.
Qed.

Lemma validateArgs_Ok_iff (args : VpcArgs) :
  validateArgs args = Ok tt ↔
  ∃ c zs ps qs env prj,
    cidrBlock args = Some c ∧ cidr_syntax c
    ∧ availabilityZones args = Some zs ∧ zs ≠ []
    ∧ publicSubnetCidrs args = Some ps ∧ length ps = length zs
    ∧ Forall cidr_syntax ps
    ∧ privateSubnetCidrs args = Some qs ∧ length qs = length zs
    ∧ Forall cidr_syntax qs
    ∧ environment args = Some env ∧ env ≠ EmptyString
    ∧ project args = Some prj ∧ prj ≠ EmptyString.
Proof.
  rewrite validateArgs_checks.
  transitivity (first_violation (checks args) = None).
  { by destruct (first_violation (checks args)). }
  rewrite first_violation_None. unfold checks.
  rewrite !Forall_app, !Forall_cons, !violated_None, !Forall_imap_violations,
    cidr_violation_None, !bool_decide_eq_false.
  split.
  - intros ((Hc & Hz & Hp & Hq & He & Hj & Hcidr & _) & Hps & Hqs).
    destruct (cidrBlock args) as [c|]; [| destruct Hc; by left].
    destruct (availabilityZones args) as [zs|]; [| destruct Hz; by left].
    destruct (publicSubnetCidrs args) as [ps|];
      [| destruct Hp; simpl; congruence].
    destruct (privateSubnetCidrs args) as [qs|];
      [| destruct Hq; simpl; congruence].
    destruct (environment args) as [env|]; [| destruct He; by left].
    destruct (project args) as [prj|]; [| destruct Hj; by left].
    exists c, zs, ps, qs, env, prj. simpl in *.
    repeat split; try done.
    + intros ->. destruct Hz. by right.
    + destruct (decide (length ps = length zs)); [done |].
      destruct Hp. congruence.
    + destruct (decide (length qs = length zs)); [done |].
      destruct Hq. congruence.
    + intros ->. destruct He. by right.
    + intros ->. destruct Hj. by right.
  - intros (c & zs & ps & qs & env & prj & -> & Hc & -> & Hz & -> & Lp & Hps
            & -> & Lq & Hqs & -> & He & -> & Hj).
    simpl. rewrite Lp, Lq. repeat split; try done.
    + intros [? | [= ->]]; [done |]. by apply cidr_syntax_not_empty in Hc.
    + intros [? | [= ->]]; done.
    + intros H; by apply H.
    + intros H; by apply H.
    + intros [? | [= ->]]; done.
    + intros [? | [= ->]]; done.
Qed.

End MoreValidatorFacts.

(** X1. [validateArgs] accepts a configuration exactly when the address
    block is present and has CIDR syntax, the zone list is present and not
    empty, both CIDR lists are present, as long as the zone list and made
    of blocks with CIDR syntax, and the environment and project labels are
    present and not empty.  Nothing else is looked at. *)
Theorem validateArgs_accepts_iff (args : VpcArgs) :
  validateArgs args = Ok tt ↔
  ∃ c zs ps qs env prj,
    cidrBlock args = Some c ∧ cidr_syntax c
    ∧ availabilityZones args = Some zs ∧ zs ≠ []
    ∧ publicSubnetCidrs args = Some ps ∧ length ps = length zs
    ∧ Forall cidr_syntax ps
    ∧ privateSubnetCidrs args = Some qs ∧ length qs = length zs
    ∧ Forall cidr_syntax qs
    ∧ environment args = Some env ∧ env ≠ EmptyString
    ∧ project args = Some prj ∧ prj ≠ EmptyString.
Proof. apply validateArgs_Ok_iff. Qed.

(** X2. Which answer [validateCidrBlock] gives.  It accepts only CIDR
    syntax.  It raises the format message exactly for strings the pattern
    does not match; for a matching string it raises the prefix message when
    the prefix length is outside 8..30, whatever the octets are; and the
    address message only when the prefix length is fine and an octet
    exceeds 255.  It never fails in another way. *)
Theorem validateCidrBlock_outcomes (cidr name : string) :
  match validateCidrBlock cidr name with
  | Ok _ => cidr_syntax cidr
  | Throw TypeError | Throw ResourceError => False
  | Throw (Error m) =>
      (m = format_message name ∧ ¬ cidr_shape cidr)
      ∨ (∃ a b c d p,
           cidr = a +:+ "." +:+ b +:+ "." +:+ c +:+ "." +:+ d +:+ "/" +:+ p
           ∧ digits_within 1 3 a ∧ digits_within 1 3 b ∧ digits_within 1 3 c
           ∧ digits_within 1 3 d ∧ digits_within 1 2 p
           ∧ ((m = prefix_message name
               ∧ ¬ (8 ≤ Str.decimal p ≤ 30))
              ∨ (m = address_message name
                 ∧ 8 ≤ Str.decimal p ≤ 30
                 ∧ (255 < Str.decimal a ∨ 255 < Str.decimal b
                    ∨ 255 < Str.decimal c ∨ 255 < Str.decimal d))))
  end.
Proof.
  destruct (Regex.test cidrRegex cidr) eqn:Ht.
  - pose proof Ht as Hshape.
    apply cidrRegex_language in Hshape
      as (a & b & c & d & p & -> & Ha & Hb & Hc & Hd & Hp).
    pose proof (validateCidrBlock_iff
                  (a +:+ "." +:+ b +:+ "." +:+ c +:+ "." +:+ d +:+ "/" +:+ p) name)
      as Hiff.
    rewrite validateCidrBlock_matched in * by done.
    destruct (bool_decide (Str.decimal p < 8) || bool_decide (30 < Str.decimal p))
      eqn:E1; simpl in *.
    { right. exists a, b, c, d, p. repeat (split; [done |]). left.
      split; [done |]. apply orb_true_iff in E1 as [E1 | E1];
        apply bool_decide_eq_true in E1; lia. }
    apply orb_false_iff in E1 as [E1 E1'].
    apply bool_decide_eq_false in E1, E1'.
    destruct (bool_decide (255 < Str.decimal a) || bool_decide (255 < Str.decimal b)
              || bool_decide (255 < Str.decimal c) || bool_decide (255 < Str.decimal d))
      eqn:E2; simpl in *.
    { right. exists a, b, c, d, p. repeat (split; [done |]). right.
      split; [done |]. split; [lia |].
      rewrite !orb_true_iff, !bool_decide_eq_true in E2. tauto. }
    by apply Hiff.
  - unfold validateCidrBlock. rewrite Ht. simpl. left. split; [done |].
    intros Hshape. apply cidrRegex_language in Hshape. congruence.
Qed.

Section FirstInvalid.

Lemma cidr_violation_Some label cidr :
  ¬ cidr_syntax cidr → ∃ m, cidr_violation label cidr = Some m.
Proof.
  intros Hbad. destruct (cidr_violation label cidr) as [m|] eqn:E; [by exists m |].
  by apply cidr_violation_None in E.
Qed.

(** The first block without CIDR syntax decides the outcome of a pass over
    a list of blocks. *)
Lemma first_violation_least (label : nat → string) (l : list string)
    (rest : list (option string)) (i : nat) (c : string) :
  l !! i = Some c →
  ¬ cidr_syntax c →
  (∀ j c', (j < i)%nat → l !! j = Some c' → cidr_syntax c') →
  first_violation (imap (λ j x, cidr_violation (label j) x) l ++ rest)
  = cidr_violation (label i) c.
Proof.
  revert label i. induction l as [|x l IH]; intros label i Hi Hbad Hbefore; [done |].
  destruct i as [|i]; simpl in *.
  - injection Hi as ->.
    by destruct (cidr_violation_Some (label 0%nat) c Hbad) as [m ->].
  - assert (cidr_violation (label 0%nat) x = None) as ->.
    { apply cidr_violation_None. apply (Hbefore 0%nat); [lia | done]. }
    apply (IH (label ∘ S) i Hi Hbad).
    intros j c' Hj Hc'. apply (Hbefore (S j)); [lia | done].
Qed.

Lemma first_violation_all_valid (label : nat → string) (l : list string)
    (rest : list (option string)) :
  Forall cidr_syntax l →
  first_violation (imap (λ j x, cidr_violation (label j) x) l ++ rest)
  = first_violation rest.
Proof.
  intros Hl. rewrite first_violation_app.
  apply (Forall_imap_violations label) in Hl.
  apply first_violation_None in Hl. by rewrite Hl.
Qed.

(** What is left of the checks once a configuration has passed and its
    CIDR lists are replaced by lists of the right length. *)
Lemma checks_with_subnets args zs ps qs :
  validateArgs args = Ok tt →
  availabilityZones args = Some zs →
  length ps = length zs →
  length qs = length zs →
  first_violation (checks (with_subnets (Some ps) (Some qs) args))
  = first_violation
      (imap (λ j x, cidr_violation (public_label j) x) ps
       ++ imap (λ j x, cidr_violation (private_label j) x) qs).
Proof.
  intros Hv Hz Lp Lq.
  apply validateArgs_Ok_iff in Hv
    as (c & zs' & ps' & qs' & env & prj & Hc & Hcs & Hz' & Hne & _ & _ & _ & _ & _ & _
        & He & Hene & Hj & Hjne).
  rewrite Hz in Hz'. injection Hz' as <-.
  unfold checks.
  cbn [with_subnets cidrBlock availabilityZones publicSubnetCidrs
       privateSubnetCidrs environment project].
  rewrite Hc, Hz, He, Hj. cbn [default fmap option_fmap option_map to_text].
  rewrite Lp, Lq.
  rewrite <- !app_comm_cons, !first_violation_violated.
  rewrite !bool_decide_eq_false_2.
  { apply cidr_violation_None with (label := "VPC CIDR") in Hcs.
    unfold id. simpl. by rewrite Hcs. }
  all: try (intros H; by apply H).
  all: intros [? | [= ?]]; subst; try done.
  by apply cidr_syntax_not_empty in Hcs.
Qed.

End FirstInvalid.

(** X3. Subnet blocks are checked in list order, the public list first.
    When the presence and length checks pass and the network block is
    fine, the error raised is the one of the first public block without
    CIDR syntax, under the label of its index, whatever the private blocks
    are. *)
Theorem first_invalid_public_cidr_is_reported (args : VpcArgs)
    (zs ps qs : list string) (i : nat) (c : string) :
  validateArgs args = Ok tt →
  availabilityZones args = Some zs →
  length ps = length zs →
  length qs = length zs →
  ps !! i = Some c →
  ¬ cidr_syntax c →
  (∀ j c', (j < i)%nat → ps !! j = Some c' → cidr_syntax c') →
  ∃ m,
    validateArgs (with_subnets (Some ps) (Some qs) args) = Throw (Error m)
    ∧ cidr_violation (public_label i) c = Some m.
Proof.
  intros Hv Hz Lp Lq Hi Hbad Hbefore.
  destruct (cidr_violation_Some (public_label i) c Hbad) as [m Hm].
  exists m. split; [| done].
  rewrite validateArgs_checks, (checks_with_subnets args zs ps qs Hv Hz Lp Lq).
  by rewrite (first_violation_least public_label ps _ i c Hi Hbad Hbefore), Hm.
Qed.

Lemma first_invalid_public_cidr_is_reported_witness :
  ∃ m,
    validateArgs
      (with_subnets (Some ["172.16.1.0/24"; "172.16.2.0/33"; "bad"])
         (Some ["x"; "y"; "z"]) advanced_args)
    = Throw (Error m)
    ∧ cidr_violation (public_label 1) "172.16.2.0/33" = Some m.
Proof.
  apply (first_invalid_public_cidr_is_reported advanced_args three_zones
           ["172.16.1.0/24"; "172.16.2.0/33"; "bad"] ["x"; "y"; "z"] 1
           "172.16.2.0/33").
  - vm_compute. reflexivity.
  - reflexivity.
  - reflexivity.
  - reflexivity.
  - reflexivity.
  - intros H. apply (validateCidrBlock_iff _ "n") in H. vm_compute in H. discriminate.
  - intros j c' Hj Hc'. destruct j as [|[|j]]; [| lia | lia].
    injection Hc' as <-. apply (validateCidrBlock_iff _ "n"). vm_compute. reflexivity.
Defined.

(** X4. A private block is reported only when every public block has CIDR
    syntax: the error is then the one of the first private block without
    it, under the label of its index. *)
Theorem first_invalid_private_cidr_is_reported (args : VpcArgs)
    (zs ps qs : list string) (i : nat) (c : string) :
  validateArgs args = Ok tt →
  availabilityZones args = Some zs →
  length ps = length zs →
  length qs = length zs →
  Forall cidr_syntax ps →
  qs !! i = Some c →
  ¬ cidr_syntax c →
  (∀ j c', (j < i)%nat → qs !! j = Some c' → cidr_syntax c') →
  ∃ m,
    validateArgs (with_subnets (Some ps) (Some qs) args) = Throw (Error m)
    ∧ cidr_violation (private_label i) c = Some m.
Proof.
  intros Hv Hz Lp Lq Hps Hi Hbad Hbefore.
  destruct (cidr_violation_Some (private_label i) c Hbad) as [m Hm].
  exists m. split; [| done].
  rewrite validateArgs_checks, (checks_with_subnets args zs ps qs Hv Hz Lp Lq).
  rewrite (first_violation_all_valid public_label ps _ Hps).
  rewrite <- (app_nil_r (imap _ qs)).
  by rewrite (first_violation_least private_label qs [] i c Hi Hbad Hbefore), Hm.
Qed.

Lemma first_invalid_private_cidr_is_reported_witness :
  ∃ m,
    validateArgs
      (with_subnets (Some ["172.16.1.0/24"; "172.16.2.0/24"; "172.16.3.0/24"])
         (Some ["172.16.11.0/24"; "172.16.12.0/24"; "172.16.13.0/7"]) advanced_args)
    = Throw (Error m)
    ∧ cidr_violation (private_label 2) "172.16.13.0/7" = Some m.
Proof.
  apply (first_invalid_private_cidr_is_reported advanced_args three_zones
           ["172.16.1.0/24"; "172.16.2.0/24"; "172.16.3.0/24"]
           ["172.16.11.0/24"; "172.16.12.0/24"; "172.16.13.0/7"] 2
           "172.16.13.0/7").
  - vm_compute. reflexivity.
  - reflexivity.
  - reflexivity.
  - reflexivity.
  - repeat constructor; apply (validateCidrBlock_iff _ "n"); vm_compute; reflexivity.
  - reflexivity.
  - intros H. apply (validateCidrBlock_iff _ "n") in H. vm_compute in H. discriminate.
  - intros j c' Hj Hc'. destruct j as [|[|[|j]]]; [| | lia | lia];
      injection Hc' as <-; apply (validateCidrBlock_iff _ "n"); vm_compute; reflexivity.
Defined.

(** X5. The validator looks at the zone list only to count it, and at no
    optional field: two configurations with the same address block, CIDR
    lists and labels and equally long zone lists get the same answer,
    whatever their zone names (repeated or not), tenancy, flags, retention
    and tags are. *)
Theorem validateArgs_reads_only_counts_and_blocks (a a' : VpcArgs) :
  same_validated a a' →
  validateArgs a = validateArgs a'.
Proof.
  intros (Hc & Hz & Hp & Hq & He & Hj).
  rewrite !validateArgs_checks.
  assert (checks a = checks a') as ->; [| done].
  unfold checks. rewrite Hc, Hp, Hq, He, Hj.
  assert (length (default [] (availabilityZones a))
          = length (default [] (availabilityZones a'))) as ->.
  { destruct (availabilityZones a), (availabilityZones a'); simpl in *; congruence. }
  assert (bool_decide (availabilityZones a = None ∨ availabilityZones a = Some [])
          = bool_decide (availabilityZones a' = None ∨ availabilityZones a' = Some []))
    as ->; [| done].
  apply bool_decide_ext.
  destruct (availabilityZones a) as [[|z zs]|], (availabilityZones a') as [[|z' zs']|];
    simpl in Hz; try discriminate; split; intros [? | ?]; try done; auto.
Qed.

Lemma validateArgs_reads_only_counts_and_blocks_witness :
  validateArgs
    {| cidrBlock := Some "10.0.0.0/16";
       availabilityZones := Some ["same"; "same"];
       publicSubnetCidrs := Some ["10.0.1.0/24"; "10.0.2.0/24"];
       privateSubnetCidrs := Some ["10.0.11.0/24"; "10.0.12.0/24"];
       environment := Some "dev";
       project := Some "example-project";
       instanceTenancy := Some "shared";
       enableNatGateway := None;
       enableFlowLogs := None;
       flowLogRetentionDays := Some (Num (-5));
       tags := None |}
  = validateArgs basic_args.
Proof.
  apply validateArgs_reads_only_counts_and_blocks.
  repeat split.
Defined.

(** ** Further theory of the declared graph *)

Section PositionFacts.

Variables (name : string) (args : VpcArgs) (this b : nat) (zs : list string).

Lemma at_position (P : nat → Resource → Prop) (p q : nat) (r : Resource) :
  P p r → p = q → P q r.
Proof. by intros H <-. Qed.

(** A property of every declared resource and its position follows from
    the property of each kind of declaration at its position. *)
Lemma graph_lookup_at (P : nat → Resource → Prop) :
  P (at_vpc b) (vpc_res name args this) →
  P (at_igw b) (igw_res name args this b) →
  (∀ i az, zs !! i = Some az →
     P (at_public b i) (public_subnet_res name args this b i az)) →
  (∀ i az, zs !! i = Some az →
     P (at_private b zs i) (private_subnet_res name args this b i az)) →
  P (at_public_rt b zs) (public_rt_res name args this b) →
  (∀ i az, zs !! i = Some az →
     P (at_public_rta b zs i) (public_rta_res name this b zs i)) →
  (not_false (enableNatGateway args) = true → ∀ i az, zs !! i = Some az →
     P (at_eip b zs i) (eip_res name args this az)) →
  (not_false (enableNatGateway args) = true → ∀ i az, zs !! i = Some az →
     P (at_nat b zs i) (nat_res name args this b zs i az)) →
  (∀ i az, zs !! i = Some az →
     P (at_private_rt args b zs i) (private_rt_res name args this b zs i az)) →
  (∀ i az, zs !! i = Some az →
     P (at_private_rta args b zs i) (private_rta_res name args this b zs i)) →
  P (at_sg args b zs) (sg_res name args this b) →
  (not_false (enableFlowLogs args) = true →
     P (at_log_group args b zs) (log_group_res name args this)) →
  (not_false (enableFlowLogs args) = true →
     P (at_role args b zs) (role_res name args this)) →
  (not_false (enableFlowLogs args) = true →
     P (at_policy args b zs) (policy_res name args this b zs)) →
  (not_false (enableFlowLogs args) = true →
     P (at_flow_log args b zs) (flow_log_res name args this b zs)) →
  ∀ k r, graph name args this b zs !! k = Some r → P (b + k)%nat r.
Proof.
  intros Hvpc Higw Hpub Hpriv Hprt Hprta Heip Hnat Hrt Hrta Hsg Hlg Hrole Hpol Hfl
    k r Hk.
  unfold graph, nat_part, flow_part in Hk.
  destruct (not_false (enableNatGateway args)) eqn:En,
    (not_false (enableFlowLogs args)) eqn:Ef;
    repeat (apply lookup_app_Some in Hk as [Hk | [? Hk]]);
    rewrite ?length_app, ?length_imap in *; cbn [length] in *;
    try (apply list_lookup_imap_Some in Hk as (az & Hk & ->));
    try (apply list_lookup_singleton_Some in Hk as [? <-]);
    try match type of Hk with
        | [_; _] !! _ = Some _ =>
            destruct k as [|[|k]]; simpl in Hk; [| | done]; injection Hk as <-
        | [_; _; _; _] !! ?j = Some _ =>
            let jj := fresh "j" in
            remember j as jj eqn:Ej; destruct jj as [|[|[|[|?]]]]; simpl in Hk;
            [| | | | done]; injection Hk as <-
        end;
    try done;
    (eapply at_position;
     [ first [ exact Hvpc | exact Higw | exact Hprt | exact Hsg
             | exact (Hlg eq_refl) | exact (Hrole eq_refl) | exact (Hpol eq_refl)
             | exact (Hfl eq_refl)
             | eapply Hpub; eassumption | eapply Hpriv; eassumption
             | eapply Hprta; eassumption | eapply (Heip eq_refl); eassumption
             | eapply (Hnat eq_refl); eassumption | eapply Hrt; eassumption
             | eapply Hrta; eassumption ]
     | unfold at_flow_log, at_policy, at_role, at_log_group, at_sg, at_private_rta,
         at_private_rt, nat_size, at_nat, at_eip, at_public_rta, at_public_rt,
         at_private, at_public, at_igw, at_vpc;
       rewrite ?En; lia ]).
Qed.

End PositionFacts.

Section MoreRunFacts.

Variables (name : string) (args : VpcArgs) (opts : option ComponentResourceOptions)
  (zs : list string) (e : Engine).
Hypothesis Hname : name ≠ "".
Hypothesis Hv : validateArgs args = Ok tt.
Hypothesis Hz : availabilityZones args = Some zs.

Lemma resource_at_declared (k : nat) :
  resource_at name args opts e (length (declared e) + k)
  = graph name args (length (components e)) (length (declared e)) zs !! k.
Proof.
  unfold resource_at. rewrite (final_ok name args opts zs e Hname Hv Hz).
  unfold after_run. cbn [declared].
  rewrite lookup_app_r by lia. f_equal. lia.
Qed.

Lemma length_graph :
  length (graph name args (length (components e)) (length (declared e)) zs)
  = (4 + 5 * length zs
     + (if not_false (enableNatGateway args) then 2 * length zs else 0)
     + (if not_false (enableFlowLogs args) then 4 else 0))%nat.
Proof.
  unfold graph, nat_part, flow_part.
  destruct (not_false (enableNatGateway args)), (not_false (enableFlowLogs args));
    rewrite ?length_app, ?length_imap; cbn [length]; lia.
Qed.

End MoreRunFacts.

(** ** Further properties of the constructor

    An accepted run is a call of the constructor under a name that is not
    empty, on a configuration that [validateArgs] accepts. *)

(** X8. The census of one accepted run over [n] zones: one network, one
    internet gateway, one default security group, [2n] subnets, [n + 1]
    route tables, [2n] route-table associations, [n] elastic addresses and
    [n] NAT gateways when NAT is enabled and none otherwise, one each of
    log sink, role, role policy and flow log when flow logging is enabled
    and none otherwise; [4 + 5n] resources plus [2n] for NAT and 4 for flow
    logging. *)
Theorem resource_census (name : string) (args : VpcArgs)
    (opts : option ComponentResourceOptions) (zs : list string) (e : Engine) :
  name ≠ "" →
  validateArgs args = Ok tt →
  availabilityZones args = Some zs →
  let n := length zs in
  let if_nat := if not_false (enableNatGateway args) then n else 0%nat in
  let if_flow := if not_false (enableFlowLogs args) then 1%nat else 0%nat in
  (∀ k, count_kind k (declared_by name args opts e)
        = match k with
          | KVpc | KInternetGateway | KDefaultSecurityGroup => 1%nat
          | KSubnet | KRouteTableAssociation => (2 * n)%nat
          | KRouteTable => (1 + n)%nat
          | KEip | KNatGateway => if_nat
          | KLogGroup | KRole | KRolePolicy | KFlowLog => if_flow
          end)
  ∧ length (declared_by name args opts e) = (4 + 5 * n + 2 * if_nat + 4 * if_flow)%nat.
Proof.
  intros Hname Hv Hz n if_nat if_flow.
  rewrite (declared_by_ok name args opts zs e Hname Hv Hz). split.
  - intros k. by rewrite count_kind_graph.
  - rewrite length_graph. subst n if_nat if_flow.
    destruct (not_false (enableNatGateway args)), (not_false (enableFlowLogs args)); lia.
Qed.

Lemma resource_census_witness :
  (∀ k, count_kind k (declared_by "advanced-vpc" advanced_args None fresh)
        = match k with
          | KVpc | KInternetGateway | KDefaultSecurityGroup => 1%nat
          | KSubnet | KRouteTableAssociation => 6%nat
          | KRouteTable => 4%nat
          | KEip | KNatGateway => 3%nat
          | KLogGroup | KRole | KRolePolicy | KFlowLog => 1%nat
          end)
  ∧ length (declared_by "advanced-vpc" advanced_args None fresh) = 29%nat.
Proof.
  apply (resource_census "advanced-vpc" advanced_args None three_zones fresh).
  - discriminate.
  - vm_compute. reflexivity.
  - reflexivity.
Defined.

(** X9. Public routing of an accepted run: the internet gateway is attached
    to the network; the public route table belongs to the network and has
    the single route 0.0.0.0/0 through the internet gateway; and for every
    zone [i] one association, named after the index, ties the public
    subnet of zone [i] to that one shared route table. *)
Theorem public_subnets_route_through_internet_gateway (name : string) (args : VpcArgs)
    (opts : option ComponentResourceOptions) (zs : list string) (e : Engine) :
  name ≠ "" →
  validateArgs args = Ok tt →
  availabilityZones args = Some zs →
  ∃ out g t first_rta r_igw r_rt,
    run name args opts e = Ok out
    ∧ internetGatewayId out = id_of g
    ∧ resource_at name args opts e g = Some r_igw
    ∧ res_name r_igw = name +:+ "-igw"
    ∧ res_props r_igw = InternetGatewayProps (vpcId out)
    ∧ publicRouteTableId out = id_of t
    ∧ resource_at name args opts e t = Some r_rt
    ∧ res_name r_rt = name +:+ "-public-rt"
    ∧ res_props r_rt
      = RouteTableProps (vpcId out)
          (Some [{| route_cidrBlock := "0.0.0.0/0";
                    route_gatewayId := Some (internetGatewayId out);
                    route_natGatewayId := None |}])
    ∧ ∀ i az, zs !! i = Some az →
        ∃ s rta,
          publicSubnetIds out !! i = Some s
          ∧ resource_at name args opts e (first_rta + i) = Some rta
          ∧ res_name rta = name +:+ "-public-rta-" +:+ Str.of_nat i
          ∧ res_props rta = RouteTableAssociationProps s (publicRouteTableId out).
Proof.
  intros Hname Hv Hz.
  exists (outputs args (length (declared e)) zs), (at_igw (length (declared e))),
    (at_public_rt (length (declared e)) zs),
    (at_public_rta (length (declared e)) zs 0).
  eexists _, _.
  split; [exact (run_ok name args opts zs e Hname Hv Hz) |].
  rewrite (resource_at_igw name args opts zs e Hname Hv Hz).
  rewrite (resource_at_public_rt name args opts zs e Hname Hv Hz).
  do 8 (split; [reflexivity |]).
  intros i az Hi. eexists _, _.
  cbn [outputs publicSubnetIds publicRouteTableId].
  rewrite list_lookup_imap, Hi.
  replace (at_public_rta (length (declared e)) zs 0 + i)%nat
    with (at_public_rta (length (declared e)) zs i) by (unfold at_public_rta; lia).
  rewrite (resource_at_public_rta name args opts zs e Hname Hv Hz i az Hi).
  repeat split.
Qed.

Lemma public_subnets_route_through_internet_gateway_witness :
  ∃ out g t first_rta r_igw r_rt,
    run "advanced-vpc" advanced_args None fresh = Ok out
    ∧ internetGatewayId out = id_of g
    ∧ resource_at "advanced-vpc" advanced_args None fresh g = Some r_igw
    ∧ res_name r_igw = "advanced-vpc-igw"
    ∧ res_props r_igw = InternetGatewayProps (vpcId out)
    ∧ publicRouteTableId out = id_of t
    ∧ resource_at "advanced-vpc" advanced_args None fresh t = Some r_rt
    ∧ res_name r_rt = "advanced-vpc-public-rt"
    ∧ res_props r_rt
      = RouteTableProps (vpcId out)
          (Some [{| route_cidrBlock := "0.0.0.0/0";
                    route_gatewayId := Some (internetGatewayId out);
                    route_natGatewayId := None |}])
    ∧ ∀ i az, three_zones !! i = Some az →
        ∃ s rta,
          publicSubnetIds out !! i = Some s
          ∧ resource_at "advanced-vpc" advanced_args None fresh (first_rta + i) = Some rta
          ∧ res_name rta = "advanced-vpc" +:+ "-public-rta-" +:+ Str.of_nat i
          ∧ res_props rta = RouteTableAssociationProps s (publicRouteTableId out).
Proof.
  apply (public_subnets_route_through_internet_gateway "advanced-vpc" advanced_args
           None three_zones fresh).
  - discriminate.
  - vm_compute. reflexivity.
  - reflexivity.
Defined.

(** X10. Private routing of an accepted run, with or without NAT: for every
    zone [i] one association, named after the index, ties the private
    subnet of zone [i] to the private route table of zone [i], and that
    route table belongs to the network. *)
Theorem private_subnets_use_their_zone_route_table (name : string) (args : VpcArgs)
    (opts : option ComponentResourceOptions) (zs : list string) (e : Engine) :
  name ≠ "" →
  validateArgs args = Ok tt →
  availabilityZones args = Some zs →
  ∃ out first_rta,
    run name args opts e = Ok out
    ∧ length (privateRouteTableIds out) = length zs
    ∧ ∀ i az, zs !! i = Some az →
        ∃ s t rta rtb routes,
          privateSubnetIds out !! i = Some s
          ∧ privateRouteTableIds out !! i = Some (id_of t)
          ∧ resource_at name args opts e (first_rta + i) = Some rta
          ∧ res_name rta = name +:+ "-private-rta-" +:+ Str.of_nat i
          ∧ res_props rta = RouteTableAssociationProps s (id_of t)
          ∧ resource_at name args opts e t = Some rtb
          ∧ res_name rtb = name +:+ "-private-rt-" +:+ az
          ∧ res_props rtb = RouteTableProps (vpcId out) routes.
Proof.
  intros Hname Hv Hz.
  exists (outputs args (length (declared e)) zs),
    (at_private_rta args (length (declared e)) zs 0).
  split; [exact (run_ok name args opts zs e Hname Hv Hz) |].
  cbn [outputs privateSubnetIds privateRouteTableIds vpcId].
  rewrite length_imap. split; [done |].
  intros i az Hi.
  exists (id_of (at_private (length (declared e)) zs i)),
    (at_private_rt args (length (declared e)) zs i).
  eexists _, _, _.
  rewrite !list_lookup_imap, Hi.
  replace (at_private_rta args (length (declared e)) zs 0 + i)%nat
    with (at_private_rta args (length (declared e)) zs i)
    by (unfold at_private_rta; lia).
  rewrite (resource_at_private_rta name args opts zs e Hname Hv Hz i az Hi).
  rewrite (resource_at_private_rt name args opts zs e Hname Hv Hz i az Hi).
  repeat split.
Qed.

Lemma private_subnets_use_their_zone_route_table_witness :
  ∃ out first_rta,
    run "example-vpc" no_nat_args None fresh = Ok out
    ∧ length (privateRouteTableIds out) = length two_zones
    ∧ ∀ i az, two_zones !! i = Some az →
        ∃ s t rta rtb routes,
          privateSubnetIds out !! i = Some s
          ∧ privateRouteTableIds out !! i = Some (id_of t)
          ∧ resource_at "example-vpc" no_nat_args None fresh (first_rta + i) = Some rta
          ∧ res_name rta = "example-vpc" +:+ "-private-rta-" +:+ Str.of_nat i
          ∧ res_props rta = RouteTableAssociationProps s (id_of t)
          ∧ resource_at "example-vpc" no_nat_args None fresh t = Some rtb
          ∧ res_name rtb = "example-vpc" +:+ "-private-rt-" +:+ az
          ∧ res_props rtb = RouteTableProps (vpcId out) routes.
Proof.
  apply (private_subnets_use_their_zone_route_table "example-vpc" no_nat_args
           None two_zones fresh).
  - discriminate.
  - vm_compute. reflexivity.
  - reflexivity.
Defined.

(** X11. The network and its default security group in an accepted run.
    The network is declared first, with the validated address block, DNS
    host names and DNS support switched on, and the given tenancy
    ("default" when it is left out or empty); [vpcId] and [vpcCidr] are
    fields of that one resource.  The default security group belongs to the
    network and is declared with a single egress rule, every protocol to
    0.0.0.0/0. *)
Theorem network_and_default_security_group (name : string) (args : VpcArgs)
    (opts : option ComponentResourceOptions) (e : Engine) :
  name ≠ "" →
  validateArgs args = Ok tt →
  ∃ out v sg c r_vpc r_sg,
    run name args opts e = Ok out
    ∧ vpcId out = OutField v FId
    ∧ vpcCidr out = OutField v FCidrBlock
    ∧ v = length (declared e)
    ∧ resource_at name args opts e v = Some r_vpc
    ∧ res_name r_vpc = name +:+ "-vpc"
    ∧ cidrBlock args = Some c
    ∧ cidr_syntax c
    ∧ res_props r_vpc
      = VpcProps (Some c) true true (str_or (instanceTenancy args) "default")
    ∧ resource_at name args opts e sg = Some r_sg
    ∧ res_name r_sg = name +:+ "-default-sg"
    ∧ res_props r_sg
      = DefaultSecurityGroupProps (vpcId out)
          [{| egress_protocol := "-1"; egress_fromPort := 0; egress_toPort := 0;
              egress_cidrBlocks := ["0.0.0.0/0"] |}]
    ∧ count_kind KVpc (declared_by name args opts e) = 1%nat
    ∧ count_kind KDefaultSecurityGroup (declared_by name args opts e) = 1%nat.
Proof.
  intros Hname Hv.
  pose proof Hv as Hacc. apply validateArgs_Ok_iff in Hacc
    as (c & zs & ps & qs & env & prj & Hc & Hcs & Hz & _).
  exists (outputs args (length (declared e)) zs), (at_vpc (length (declared e))),
    (at_sg args (length (declared e)) zs), c.
  eexists _, _.
  split; [exact (run_ok name args opts zs e Hname Hv Hz) |].
  rewrite (resource_at_vpc name args opts zs e Hname Hv Hz).
  rewrite (resource_at_sg name args opts zs e Hname Hv Hz).
  rewrite (declared_by_ok name args opts zs e Hname Hv Hz), !count_kind_graph.
  unfold vpc_res, res. cbn [res_props res_name]. rewrite Hc.
  repeat split; done.
Qed.

Lemma network_and_default_security_group_witness :
  ∃ out v sg c r_vpc r_sg,
    run "advanced-vpc" advanced_args None fresh = Ok out
    ∧ vpcId out = OutField v FId
    ∧ vpcCidr out = OutField v FCidrBlock
    ∧ v = 0%nat
    ∧ resource_at "advanced-vpc" advanced_args None fresh v = Some r_vpc
    ∧ res_name r_vpc = "advanced-vpc-vpc"
    ∧ cidrBlock advanced_args = Some c
    ∧ cidr_syntax c
    ∧ res_props r_vpc = VpcProps (Some c) true true "default"
    ∧ resource_at "advanced-vpc" advanced_args None fresh sg = Some r_sg
    ∧ res_name r_sg = "advanced-vpc-default-sg"
    ∧ res_props r_sg
      = DefaultSecurityGroupProps (vpcId out)
          [{| egress_protocol := "-1"; egress_fromPort := 0; egress_toPort := 0;
              egress_cidrBlocks := ["0.0.0.0/0"] |}]
    ∧ count_kind KVpc (declared_by "advanced-vpc" advanced_args None fresh) = 1%nat
    ∧ count_kind KDefaultSecurityGroup (declared_by "advanced-vpc" advanced_args None fresh)
      = 1%nat.
Proof.
  apply (network_and_default_security_group "advanced-vpc" advanced_args None fresh).
  - discriminate.
  - vm_compute. reflexivity.
Defined.

(** X12. In a run on a configuration that [validateArgs] accepts, whatever
    the name, every deferred value a declared resource holds
    points to a resource declared earlier in the same run, and to one of
    the kind the property is meant for: a [vpcId] to the network, a
    [subnetId] to a subnet, a [routeTableId] to a route table, an
    [allocationId] to an elastic address, a route's gateway to the internet
    gateway or a NAT gateway, the policy's role and resource to the role and
    the log sink, the flow log's destination and role to the log sink and
    the role.  No property refers forward, to itself, or outside the run. *)
Theorem references_point_to_earlier_resources (name : string) (args : VpcArgs)
    (opts : option ComponentResourceOptions) (e : Engine) :
  validateArgs args = Ok tt →
  ∀ p r,
    (length (declared e) ≤ p)%nat →
    resource_at name args opts e p = Some r →
    Forall (λ w, ∃ q f t,
                w.1 = OutField q f
                ∧ (length (declared e) ≤ q < p)%nat
                ∧ resource_at name args opts e q = Some t
                ∧ kind_of (res_props t) = w.2)
      (wires (res_props r)).
Proof.
  intros Hv p r Hp Hr.
  destruct (decide (name = "")) as [-> | Hname].
  { unfold resource_at, final in Hr. rewrite constructor_unnamed in Hr.
    apply lookup_lt_Some in Hr. cbn [snd] in Hr. lia. }
  destruct (valid_shape args Hv) as (zs & ps & qs & Hz & _).
  replace p with (length (declared e) + (p - length (declared e)))%nat in Hr |- *
    by lia.
  rewrite (resource_at_declared name args opts zs e Hname Hv Hz) in Hr.
  revert Hr. generalize (p - length (declared e))%nat. clear p Hp. intros k Hk.
  revert k r Hk.
  pose proof (resource_at_vpc name args opts zs e Hname Hv Hz) as Rvpc.
  pose proof (resource_at_igw name args opts zs e Hname Hv Hz) as Rigw.
  pose proof (resource_at_public_rt name args opts zs e Hname Hv Hz) as Rprt.
  pose proof (resource_at_public name args opts zs e Hname Hv Hz) as Rpub.
  pose proof (resource_at_private name args opts zs e Hname Hv Hz) as Rpriv.
  pose proof (resource_at_private_rt name args opts zs e Hname Hv Hz) as Rrt.
  pose proof (resource_at_eip name args opts zs e Hname Hv Hz) as Reip.
  pose proof (resource_at_nat name args opts zs e Hname Hv Hz) as Rnat.
  pose proof (resource_at_flow name args opts zs e Hname Hv Hz) as Rflow.
  destruct (not_false (enableNatGateway args)) eqn:En;
    (apply (graph_lookup_at name args (length (components e)) (length (declared e)) zs
              (λ p r, Forall (λ w, ∃ q f t,
                                 w.1 = OutField q f
                                 ∧ (length (declared e) ≤ q < p)%nat
                                 ∧ resource_at name args opts e q = Some t
                                 ∧ kind_of (res_props t) = w.2)
                        (wires (res_props r))));
     unfold flow_log_res, policy_res, role_res, log_group_res, sg_res,
       private_rta_res, private_rt_res, nat_res, eip_res, public_rta_res,
       public_rt_res, private_subnet_res, public_subnet_res, igw_res, vpc_res, res;
     cbn [res_props wires route_wires default map concat app route_gatewayId
          route_natGatewayId policy_Statement stmt_Resource];
     rewrite ?En;
     cbn [res_props wires route_wires default map concat app route_gatewayId
          route_natGatewayId policy_Statement stmt_Resource];
     unfold id;
     cbn [res_props wires route_wires default map concat app route_gatewayId
          route_natGatewayId policy_Statement stmt_Resource];
     intros;
     try match goal with
         | H : not_false (enableFlowLogs args) = true |- _ =>
             destruct (Rflow H) as (Rlg & Rrole & _)
         end;
     repeat match goal with
            | |- Forall _ [] => constructor
            | |- Forall _ (_ :: _) => constructor
            end;
     (cbv beta; eexists _, _, _; cbn [fst snd]; unfold id_of, arn_of;
      split; [reflexivity |];
      split;
      [ repeat match goal with
               | H : _ !! _ = Some _ |- _ => apply lookup_lt_Some in H
               end;
        unfold at_flow_log, at_policy, at_role, at_log_group, at_sg, at_private_rta,
          at_private_rt, nat_size, at_nat, at_eip, at_public_rta, at_public_rt,
          at_private, at_public, at_igw, at_vpc;
        rewrite ?En; lia
      | split;
        [ first [ exact Rvpc | exact Rigw | exact Rprt | exact Rlg | exact Rrole
                | eapply Rpub; eassumption | eapply Rpriv; eassumption
                | eapply Rrt; eassumption | eapply Reip; [done | eassumption]
                | eapply Rnat; [done | eassumption] ]
        | reflexivity ] ])).
Qed.

Lemma references_point_to_earlier_resources_witness :
  ∃ r,
    resource_at "advanced-vpc" advanced_args None fresh 15 = Some r
    ∧ Forall (λ w, ∃ q f t,
                  w.1 = OutField q f
                  ∧ (length (declared fresh) ≤ q < 15)%nat
                  ∧ resource_at "advanced-vpc" advanced_args None fresh q = Some t
                  ∧ kind_of (res_props t) = w.2)
        (wires (res_props r)).
Proof.
  destruct (resource_at "advanced-vpc" advanced_args None fresh 15) as [r|] eqn:Hr.
  - exists r. split; [reflexivity |].
    apply (references_point_to_earlier_resources "advanced-vpc" advanced_args None
             fresh).
    + vm_compute. reflexivity.
    + simpl. lia.
    + exact Hr.
  - vm_compute in Hr. discriminate.
Defined.

Section NameFacts.

Local Arguments String.append !_ _ / : simpl nomatch.

Lemma of_nat_inj (i j : nat) : Str.of_nat i = Str.of_nat j → i = j.
Proof.
  unfold Str.of_nat. intros H.
  apply (f_equal NilEmpty.uint_of_string) in H.
  rewrite !NilEmpty.usu in H. injection H as H.
  apply (f_equal Nat.of_uint) in H. by rewrite !Unsigned.of_to in H.
Qed.

Lemma append_inj_r (s a b : string) : s +:+ a = s +:+ b → a = b.
Proof. induction s as [|c s IH]; simpl; [done |]. intros [= H]. by apply IH. Qed.

Variables (name : string) (args : VpcArgs) (this b : nat) (zs : list string).
Hypothesis Hnodup : NoDup zs.

Lemma zone_index (i j : nat) (az : string) :
  zs !! i = Some az → zs !! j = Some az → i = j.
Proof. intros Hi Hj. by eapply NoDup_lookup. Qed.

(** With distinct zones, two declarations of the same type under the same
    logical name are one declaration. *)
Lemma urn_position (k k' : nat) (r r' : Resource) :
  graph name args this b zs !! k = Some r →
  graph name args this b zs !! k' = Some r' →
  urn r = urn r' →
  (b + k = b + k')%nat.
Proof.
  intros Hk Hk' Hu.
  revert k' r' Hk' Hu. revert k r Hk.
  apply (graph_lookup_at name args this b zs
           (λ p r, ∀ k' r', graph name args this b zs !! k' = Some r' →
                            urn r = urn r' → p = (b + k')%nat));
    intros;
    match goal with
    | Hk' : graph _ _ _ _ _ !! ?k' = Some ?r', Hu : urn ?X = urn ?r' |- ?pX = _ =>
        revert k' r' Hk' Hu;
        apply (graph_lookup_at name args this b zs
                 (λ p' r', urn X = urn r' → pX = p'))
    end;
    intros;
    match goal with
    | Hu : urn _ = urn _ |- _ =>
        unfold urn, flow_log_res, policy_res, role_res, log_group_res, sg_res,
          private_rta_res, private_rt_res, nat_res, eip_res, public_rta_res,
          public_rt_res, private_subnet_res, public_subnet_res, igw_res, vpc_res,
          res in Hu;
        cbn [kind_of res_props res_name] in Hu;
        first
          [ discriminate Hu
          | reflexivity
          | injection Hu as Hn; apply append_inj_r in Hn; simpl in Hn;
            first
              [ discriminate Hn
              | simplify_eq;
                repeat match goal with
                       | H : Str.of_nat ?i = Str.of_nat ?j |- _ =>
                           apply of_nat_inj in H; subst
                       | H1 : zs !! ?i = Some ?az, H2 : zs !! ?j = Some ?az |- _ =>
                           tryif constr_eq i j then fail
                           else (pose proof (zone_index i j az H1 H2); subst)
                       end;
                reflexivity ] ]
    end.
Qed.

End NameFacts.

(** X13. The engine knows a resource by its type and logical name, and the
    zone name is the only part of a logical name that varies.  In an
    accepted run no two declared resources share type and logical name
    exactly when the zone names are pairwise different; the validator does
    not ask for that, so a repeated zone yields two subnets declared under
    one name. *)
Theorem logical_names_unique_iff_zones_distinct (name : string) (args : VpcArgs)
    (opts : option ComponentResourceOptions) (zs : list string) (e : Engine) :
  name ≠ "" →
  validateArgs args = Ok tt →
  availabilityZones args = Some zs →
  NoDup (urn <$> declared_by name args opts e) ↔ NoDup zs.
Proof.
  intros Hname Hv Hz. rewrite (declared_by_ok name args opts zs e Hname Hv Hz). split.
  - intros Hnd. apply NoDup_alt. intros i j az Hi Hj.
    pose proof (resource_at_public name args opts zs e Hname Hv Hz i az Hi) as Ri.
    pose proof (resource_at_public name args opts zs e Hname Hv Hz j az Hj) as Rj.
    unfold at_public in Ri, Rj.
    rewrite <- !Nat.add_assoc, (resource_at_declared name args opts zs e Hname Hv Hz)
      in Ri, Rj.
    assert ((2 + i)%nat = (2 + j)%nat) as Heq; [| lia].
    apply (proj1 (NoDup_alt _) Hnd _ _
             (KSubnet, name +:+ "-public-" +:+ az));
      rewrite list_lookup_fmap; [by rewrite Ri | by rewrite Rj].
  - intros Hnd. apply NoDup_alt. intros i j x Hi Hj.
    rewrite list_lookup_fmap in Hi, Hj.
    destruct (graph _ _ _ _ _ !! i) as [r|] eqn:Ri; [| done].
    destruct (graph _ _ _ _ _ !! j) as [r'|] eqn:Rj; [| done].
    simpl in Hi, Hj.
    assert (urn r = urn r') as Hu by congruence.
    pose proof (urn_position name args _ _ zs Hnd i j r r' Ri Rj Hu). lia.
Qed.

Lemma logical_names_unique_iff_zones_distinct_witness :
  NoDup (urn <$> declared_by "advanced-vpc" advanced_args None fresh) ↔ NoDup three_zones.
Proof.
  apply (logical_names_unique_iff_zones_distinct "advanced-vpc" advanced_args
           None three_zones fresh).
  - discriminate.
  - vm_compute. reflexivity.
  - reflexivity.
Defined.

(** X14. Every resource declared by a run on a configuration that
    [validateArgs] accepts, whatever the name, follows the tagging
    convention: apart from the network, whose tags the caller can override,
    each tagged resource carries [Environment] and [Project] with the
    validated labels of the configuration and [ManagedBy] = "pulumi"; its
    [Name] tag equals its logical name, the log sink and the role alone
    having none; a subnet is tagged [Type] = "public" exactly when it maps
    public addresses on launch and "private" otherwise; and only the
    route-table associations and the role policy are declared without
    tags. *)
Theorem declared_resources_follow_tagging_convention (name : string) (args : VpcArgs)
    (opts : option ComponentResourceOptions) (e : Engine) :
  validateArgs args = Ok tt →
  ∃ env prj,
    environment args = Some env ∧ env ≠ EmptyString
    ∧ project args = Some prj ∧ prj ≠ EmptyString
    ∧ Forall (tags_follow_convention env prj) (declared_by name args opts e).
Proof.
  intros Hv.
  pose proof Hv as Hacc. apply validateArgs_Ok_iff in Hacc
    as (c & zs & ps & qs & env & prj & _ & _ & Hz & _ & _ & _ & _ & _ & _ & _
        & He & Hene & Hj & Hjne).
  exists env, prj. do 4 (split; [done |]).
  destruct (decide (name = "")) as [-> | Hname].
  { unfold declared_by, final. rewrite constructor_unnamed. cbn [snd].
    rewrite drop_all. constructor. }
  rewrite (declared_by_ok name args opts zs e Hname Hv Hz).
  apply graph_Forall;
    unfold tags_follow_convention, flow_log_res, policy_res, role_res,
      log_group_res, sg_res, private_rta_res, private_rt_res, nat_res, eip_res,
      public_rta_res, public_rt_res, private_subnet_res, public_subnet_res,
      igw_res, vpc_res, res, tags_named, tags_typed, tags_plain;
    cbn [res_tags res_props res_name kind_of]; rewrite ?He, ?Hj; intros;
    repeat match goal with
           | |- _ ∧ _ => split
           | |- _ ≠ _ => discriminate
           | |- _ ≠ _ → _ => intros ?
           | |- True => exact I
           | |- _ ∨ _ => first [left; reflexivity | right; reflexivity]
           | |- _ !! _ = _ => reflexivity
           end;
    try done.
Qed.

Lemma declared_resources_follow_tagging_convention_witness :
  ∃ env prj,
    environment advanced_args = Some env ∧ env ≠ EmptyString
    ∧ project advanced_args = Some prj ∧ prj ≠ EmptyString
    ∧ Forall (tags_follow_convention env prj)
        (declared_by "advanced-vpc" advanced_args None fresh).
Proof.
  apply (declared_resources_follow_tagging_convention "advanced-vpc" advanced_args
           None fresh).
  vm_compute. reflexivity.
Defined.

(** X15. Flow logging is purely additive.  In an accepted run,
    switching [enableFlowLogs] from [false] to [true] appends four
    resources (log sink, role, role policy, flow log) after everything
    else and changes no other declaration and no output except
    [flowLogId]; leaving the flag out is the same as [true]. *)
Theorem flow_logging_only_appends (name : string) (args : VpcArgs)
    (opts : option ComponentResourceOptions) (e : Engine) :
  name ≠ "" →
  validateArgs args = Ok tt →
  let on := with_flow_logs (Some true) args in
  let off := with_flow_logs (Some false) args in
  ∃ out_on out_off extra,
    run name on opts e = Ok out_on
    ∧ run name off opts e = Ok out_off
    ∧ declared_by name on opts e = declared_by name off opts e ++ extra
    ∧ map (λ r, kind_of (res_props r)) extra = [KLogGroup; KRole; KRolePolicy; KFlowLog]
    ∧ vpcId out_on = vpcId out_off
    ∧ vpcCidr out_on = vpcCidr out_off
    ∧ publicSubnetIds out_on = publicSubnetIds out_off
    ∧ privateSubnetIds out_on = privateSubnetIds out_off
    ∧ publicRouteTableId out_on = publicRouteTableId out_off
    ∧ privateRouteTableIds out_on = privateRouteTableIds out_off
    ∧ natGatewayIds out_on = natGatewayIds out_off
    ∧ internetGatewayId out_on = internetGatewayId out_off
    ∧ flowLogId out_off = OutUndefined
    ∧ flowLogId out_on
      = id_of (length (declared e) + length (declared_by name off opts e) + 3)
    ∧ constructor name (with_flow_logs None args) opts e = constructor name on opts e.
Proof.
  intros Hname Hv on off.
  destruct (valid_shape args Hv) as (zs & ps & qs & Hz & _).
  assert (validateArgs on = Ok tt) as Hon by exact Hv.
  assert (validateArgs off = Ok tt) as Hoff by exact Hv.
  assert (validateArgs (with_flow_logs None args) = Ok tt) as Hnone by exact Hv.
  assert (availabilityZones on = Some zs) as Zon by exact Hz.
  assert (availabilityZones off = Some zs) as Zoff by exact Hz.
  assert (availabilityZones (with_flow_logs None args) = Some zs) as Znone by exact Hz.
  exists (outputs on (length (declared e)) zs), (outputs off (length (declared e)) zs),
    (flow_part name on (length (components e)) (length (declared e)) zs).
  rewrite (run_ok name on opts zs e Hname Hon Zon),
    (run_ok name off opts zs e Hname Hoff Zoff).
  rewrite (declared_by_ok name on opts zs e Hname Hon Zon),
    (declared_by_ok name off opts zs e Hname Hoff Zoff).
  rewrite (constructor_run name _ opts zs e Hname Hnone Znone),
    (constructor_run name _ opts zs e Hname Hon Zon).
  do 2 (split; [reflexivity |]).
  split.
  { unfold graph. rewrite <- !app_assoc. cbn [app].
    change (flow_part name off (length (components e)) (length (declared e)) zs)
      with (@nil Resource).
    reflexivity. }
  split; [reflexivity |].
  do 9 (split; [reflexivity |]).
  split; [| reflexivity].
  rewrite (length_graph name off zs e).
  change (not_false (enableFlowLogs off)) with false.
  cbn [outputs flowLogId]. change (not_false (enableFlowLogs on)) with true.
  unfold at_flow_log, at_sg, nat_size, id_of.
  change (enableNatGateway on) with (enableNatGateway args).
  change (enableNatGateway off) with (enableNatGateway args).
  destruct (not_false (enableNatGateway args)); f_equal; lia.
Qed.

Lemma flow_logging_only_appends_witness :
  ∃ out_on out_off extra,
    run "example-vpc" (with_flow_logs (Some true) no_flow_args) None fresh
    = Ok out_on
    ∧ run "example-vpc" (with_flow_logs (Some false) no_flow_args) None fresh
      = Ok out_off
    ∧ declared_by "example-vpc" (with_flow_logs (Some true) no_flow_args) None fresh
      = declared_by "example-vpc" (with_flow_logs (Some false) no_flow_args) None
          fresh
        ++ extra
    ∧ map (λ r, kind_of (res_props r)) extra = [KLogGroup; KRole; KRolePolicy; KFlowLog]
    ∧ flowLogId out_off = OutUndefined.
Proof.
  destruct (flow_logging_only_appends "example-vpc" no_flow_args None fresh)
    as (out_on & out_off & extra & Hon & Hoff & Happ & Hkinds & _ & _ & _ & _ & _ & _
        & _ & _ & Hundef & _).
  { discriminate. }
  { vm_compute. reflexivity. }
  exists out_on, out_off, extra. auto.
Defined.

(** X16. The two ways in which the constructor fails.  Called without a
    name it raises the base class's [ResourceError] and leaves the registry
    as it was, whatever the configuration.  Called with a name it fails
    exactly when [validateArgs] refuses the configuration, with that same
    error, which is always an [Error] with a message; when [validateArgs]
    accepts, construction runs to the end and returns the outputs: none of
    the indexed reads of the zone-aligned arrays meets a missing element.
    (Arrays are the model's lists; an array with holes is outside it.) *)
Theorem constructor_fails_by_name_or_validation (name : string) (args : VpcArgs)
    (opts : option ComponentResourceOptions) (e : Engine) :
  if bool_decide (name = "") then
    run name args opts e = Throw ResourceError ∧ final name args opts e = e
  else
    match validateArgs args with
    | Ok _ => ∃ out, run name args opts e = Ok out
    | Throw x => run name args opts e = Throw x ∧ ∃ m, x = Error m
    end.
Proof.
  case_bool_decide as Hname.
  { subst name. unfold run, final. by rewrite constructor_unnamed. }
  destruct (validateArgs args) as [[]|x] eqn:Hv.
  - destruct (valid_shape args Hv) as (zs & ps & qs & Hz & _).
    eexists. exact (run_ok name args opts zs e Hname Hv Hz).
  - unfold run. rewrite (constructor_refused name args opts e x Hname Hv).
    split; [done |].
    rewrite validateArgs_checks in Hv.
    destruct (first_violation (checks args)) as [m|]; [| done].
    exists m. congruence.
Qed.

(** ** Examples *)

Example validateCidrBlock_message :
  validateCidrBlock "10.0.0.0/31" "VPC CIDR"
  = Throw (Error "VPC CIDR prefix must be between 8 and 30").
Proof. reflexivity. Qed.

Example basic_args_valid : validateArgs basic_args = Ok tt.
Proof. vm_compute. reflexivity. Qed.

Example second_private_cidr_reported :
  validateArgs
    {| cidrBlock := Some "10.0.0.0/16";
       availabilityZones := Some two_zones;
       publicSubnetCidrs := Some two_cidrs;
       privateSubnetCidrs := Some ["10.0.11.0/24"; "10.0.12.0"];
       environment := Some "dev";
       project := Some "example-project";
       instanceTenancy := None;
       enableNatGateway := None;
       enableFlowLogs := None;
       flowLogRetentionDays := None;
       tags := None |}
  = Throw (Error "Private subnet 1 CIDR must be a valid CIDR block (e.g., 10.0.0.0/16)").
Proof. vm_compute. reflexivity. Qed.

(** A component without a name: the base class throws before the
    validator runs, on a good and on a bad configuration alike, and the
    registry stays empty. *)
Example unnamed_component_refused :
  constructor "" basic_args None fresh = (Throw ResourceError, fresh)
  ∧ constructor "" mismatch_args None fresh = (Throw ResourceError, fresh).
Proof. split; vm_compute; reflexivity. Qed.

(** The two example programs of the repository run to the end. *)
Example basic_example_runs :
  ∃ out e', basic_example fresh = (Ok out, e') ∧ length (declared e') = 22%nat.
Proof. eexists _, _. vm_compute. split; reflexivity. Qed.

Example advanced_example_runs :
  ∃ out e', advanced_example fresh = (Ok out, e') ∧ length (declared e') = 29%nat.
Proof. eexists _, _. vm_compute. split; reflexivity. Qed.
